(** * TikTok account warmer: randomisation primitives, account catalogue
      and the mass interaction loops

    A shallow embedding of [src/utils/humanization.js],
    [src/utils/accountManager.js] and [src/modules/interactionModule.js].

    Conventions of the embedding.
    - JavaScript numbers are exact rationals ([Q]); integers are [Z].  The
      inputs on which a stated property is refuted below are dyadic, so
      double arithmetic is exact on them.
    - [Math.random()] is a sequence of draws, each carrying the proof that it
      lies in [0, 1); a cursor in the world says which draw comes next.
    - Arrays live in a heap of locations, so that copying ([[...xs]]) and
      in-place assignment ([xs[i] = v]) are told apart.
    - A call either completes normally or throws an [Error] with a message;
      effects performed before a throw stay performed.
    - [setTimeout] waits and the calls made on a client are recorded in a
      trace.  Console output is not recorded, except the warnings of
      [validateAccount]. *)

From Stdlib Require Import QArith Qround ZArith Lia Lqa Ascii String.
From stdpp Require Import base option list strings gmap.

Close Scope Q_scope.
Open Scope Z_scope.

(** ** JavaScript preliminaries *)

Module JS.

(** A value of [Math.random()]: a number [r] with [0 <= r < 1]. *)
Record unit_draw : Type := UnitDraw {
  draw_value :> Q;
  draw_in_range : Qle_bool 0 draw_value && negb (Qle_bool 1 draw_value) = true
}.

Definition Math_floor (x : Q) : Z := Qfloor x.

(** [xs[i]] for a number [i] that holds an integer: [None] is [undefined]. *)
Definition index {A : Type} (xs : list A) (i : Z) : option A :=
  if i <? 0 then None else xs !! Z.to_nat i.

(** Thrown values are [Error] objects; only [message] is ever read. *)
Record Error : Type := mkError { message : string }.

Inductive completion (A : Type) : Type :=
| Normal (v : A)
| Throw (e : Error).
Arguments Normal {A} v.
Arguments Throw {A} e.

Definition raises {A : Type} (c : completion A) : bool :=
  match c with
  | Normal _ => false
  | Throw _ => true
  end.

(** Truthiness of an optional string ([undefined] and [""] are falsy). *)
Definition truthy_string (s : option string) : bool :=
  match s with
  | Some s => negb (String.eqb s "")
  | None => false
  end.

(** [x || d] for an optional integer setting ([undefined] and [0] are falsy). *)
Definition or_default (x : option Z) (d : Z) : Z :=
  match x with
  | Some z => if z =? 0 then d else z
  | None => d
  end.

(** Values read from the configuration file ([JSON.parse]). *)
#[warnings="-register-all"]
Inductive json : Type :=
| JNull
| JBool (b : bool)
| JNumber (q : Q)
| JString (s : string)
| JArray (xs : list json)
| JObject (fields : gmap string json).

(** Truthiness of [v], where [None] is [undefined]. *)
Definition truthy (v : option json) : bool :=
  match v with
  | None | Some JNull => false
  | Some (JBool b) => b
  | Some (JNumber q) => negb (Qeq_bool q 0)
  | Some (JString s) => negb (String.eqb s "")
  | Some (JArray _) | Some (JObject _) => true
  end.

(** [o?.[k]]: a property of [o] when [o] is an object, else [undefined]. *)
Definition get_optional (o : option json) (k : string) : option json :=
  match o with
  | Some (JObject fields) => fields !! k
  | _ => None
  end.

End JS.

Import JS.

(** ** Worlds and effectful computations *)

Module Runtime.

Definition loc : Type := positive.

(** What a run does to its environment, oldest event first. *)
Inductive event : Type :=
| Wait (ms : Z)
| PostComment (account videoId : string) (text : option string)
| LikeComment (account commentId : string) (action : Z).

(** [E] is the type of array elements, [L] the mutable local variables of
    the entry point that is running. *)
Record world (E L : Type) : Type := World {
  heap : gmap loc (list E);
  random : nat -> unit_draw;
  cursor : nat;
  trace : list event;
  locals : L
}.
Arguments World {E L} heap random cursor trace locals.
Arguments heap {E L} w.
Arguments random {E L} w.
Arguments cursor {E L} w.
Arguments trace {E L} w.
Arguments locals {E L} w.

Section Monad.
Context {E L : Type}.

Definition M (R : Type) : Type := world E L -> completion R * world E L.

Definition ret {R} (v : R) : M R := fun w => (Normal v, w).

(** [throw error]. *)
Definition raise {R} (e : Error) : M R := fun w => (Throw e, w).

(** [throw new Error(msg)]. *)
Definition throw {R} (msg : string) : M R := raise (mkError msg).

Definition bind {R S} (c : M R) (k : R -> M S) : M S :=
  fun w =>
    match c w with
    | (Normal v, w') => k v w'
    | (Throw e, w') => (Throw e, w')
    end.

(** [try { body } catch (error) { handler }]. *)
Definition try_catch {R} (body : M R) (handler : Error -> M R) : M R :=
  fun w =>
    match body w with
    | (Normal v, w') => (Normal v, w')
    | (Throw e, w') => handler e w'
    end.

(** Lift the completion of an external call into the computation. *)
Definition await {R} (c : completion R) : M R := fun w => (c, w).

Definition emit (e : event) : M unit :=
  fun w => (Normal tt,
            World (heap w) (random w) (cursor w) (trace w ++ [e]) (locals w)).

Definition Math_random : M unit_draw :=
  fun w => (Normal (random w (cursor w)),
            World (heap w) (random w) (S (cursor w)) (trace w) (locals w)).

(** [await new Promise(resolve => setTimeout(resolve, ms))]. *)
Definition setTimeout (ms : Z) : M unit := emit (Wait ms).

Definition get_locals : M L := fun w => (Normal (locals w), w).

Definition set_locals (v : L) : M unit :=
  fun w => (Normal tt, World (heap w) (random w) (cursor w) (trace w) v).

(** Reading through a reference that holds no array is a [TypeError]. *)
Definition read_array (l : loc) : M (list E) :=
  fun w =>
    match heap w !! l with
    | Some xs => (Normal xs, w)
    | None => (Throw (mkError "TypeError: not an array"), w)
    end.

(** An array literal or spread: a new array at an unused location. *)
Definition alloc_array (xs : list E) : M loc :=
  fun w =>
    let l := fresh (dom (heap w)) in
    (Normal l,
     World (<[l := xs]> (heap w)) (random w) (cursor w) (trace w) (locals w)).

Definition write_array (l : loc) (xs : list E) : M unit :=
  fun w => (Normal tt,
            World (<[l := xs]> (heap w)) (random w) (cursor w) (trace w)
                  (locals w)).

End Monad.

Arguments M E L R : clear implicits.

Declare Scope js_scope.
Delimit Scope js_scope with js.
Notation "'let!' x ':=' c 'in' k" := (bind c (fun x => k))
  (at level 10, x name, c at level 100, k at level 200) : js_scope.
Notation "c ';;;' k" := (bind c (fun _ => k))
  (at level 100, k at level 200, right associativity) : js_scope.

End Runtime.

Import Runtime.
Open Scope js_scope.

(** ** [src/utils/humanization.js] *)

Module Humanization.

Section Functions.
Context {E L : Type}.

(** [randomDelay(min, max)]: the drawn [delay] is what the timer waits. *)
Definition randomDelay (min max : Z) : M E L unit :=
  let! r := Math_random in
  let delay := Math_floor (r * inject_Z (max - min + 1)) + min in
  setTimeout delay.

Definition randomInt (min max : Z) : M E L Z :=
  let! r := Math_random in
  ret (Math_floor (r * inject_Z (max - min + 1)) + min).

(** [randomChoice(array)].  The array is only read, so it is passed by
    value. *)
Definition randomChoice (array : list E) : M E L (option E) :=
  let! r := Math_random in
  ret (index array (Math_floor (r * inject_Z (Z.of_nat (length array))))).

(** [generateWatchTime(videoDuration, minWatchPercent, maxWatchPercent)]. *)
Definition generateWatchTime
    (videoDuration minWatchPercent maxWatchPercent : Q) : M E L Z :=
  let! r := Math_random in
  let watchPercent :=
    (r * (maxWatchPercent - minWatchPercent) + minWatchPercent)%Q in
  ret (Math_floor (videoDuration * 1000 * watchPercent)).

(** [[shuffled[i], shuffled[j]] = [shuffled[j], shuffled[i]]].  Both
    reads happen before both writes.  The loop only calls it with
    [0 <= j <= i < shuffled.length]; outside the array the model leaves
    the array as it is. *)
Definition swap (shuffled : loc) (i j : Z) : M E L unit :=
  let! xs := read_array shuffled in
  match index xs j, index xs i with
  | Some xj, Some xi =>
      write_array shuffled (<[Z.to_nat j := xi]> (<[Z.to_nat i := xj]> xs))
  | _, _ => ret tt
  end.

(** The loop [for (let i = ...; i > 0; i--)], entered with index [i]. *)
Fixpoint shuffle_loop (shuffled : loc) (i : nat) : M E L unit :=
  match i with
  | O => ret tt
  | S i' =>
      let! r := Math_random in
      let j := Math_floor (r * inject_Z (Z.of_nat i + 1)) in
      swap shuffled (Z.of_nat i) j ;;;
      shuffle_loop shuffled i'
  end.

Definition shuffleArray (array : loc) : M E L loc :=
  let! xs := read_array array in
  let! shuffled := alloc_array xs in
  shuffle_loop shuffled (length xs - 1)%nat ;;;
  ret shuffled.

End Functions.

End Humanization.

(** ** [src/utils/accountManager.js] *)

Module AccountManager.

(** An account is the object parsed from the configuration file. *)
Abbreviation Account := (gmap string json).

(** One [console.warn] of [validateAccount]: who, and which field. *)
Record warning : Type := Warning { who : json; missing : string }.

Record manager : Type := Manager {
  configPath : string;
  accounts : list Account;
  console : list warning
}.

Definition requiredFields : list string := ["username"; "sessionId"; "userAgent"].

(** [account.username || 'unknown']. *)
Definition display_name (acc : Account) : json :=
  match acc !! "username" with
  | Some v => if truthy (Some v) then v else JString "unknown"
  | None => JString "unknown"
  end.

(** The loop [for (const field of requiredFields)] of [validateAccount]. *)
Fixpoint validate_fields (acc : Account) (fields : list string)
  : bool * list warning :=
  match fields with
  | [] => (true, [])
  | field :: rest =>
      if negb (truthy (acc !! field))
      then (false, [Warning (display_name acc) field])
      else validate_fields acc rest
  end.

Definition validateAccount (acc : Account) : bool * list warning :=
  validate_fields acc requiredFields.

(** [this.accounts.filter(acc => this.validateAccount(acc))]: a new array;
    the warnings come out in the order the accounts are visited. *)
Fixpoint filter_valid (accs : list Account) : list Account * list warning :=
  match accs with
  | [] => ([], [])
  | acc :: rest =>
      let '(ok, w1) := validateAccount acc in
      let '(kept, w2) := filter_valid rest in
      (if ok then acc :: kept else kept, w1 ++ w2)
  end.

Definition getValidAccounts (m : manager) : list Account * manager :=
  let '(valid, ws) := filter_valid (accounts m) in
  (valid, Manager (configPath m) (accounts m) (console m ++ ws)).

(** The constructor of [TikTokClient]:
    [account.sessionId || account.cookies?.sessionid]. *)
Definition client_sessionId (acc : Account) : option json :=
  if truthy (acc !! "sessionId") then acc !! "sessionId"
  else get_optional (acc !! "cookies") "sessionid".

(** The rule as the specification words it: [username], [sessionId] or an
    equivalent cookie field, and [userAgent] are present and non-empty. *)
Definition validate_spec (acc : Account) : bool :=
  truthy (acc !! "username")
  && (truthy (acc !! "sessionId")
      || truthy (get_optional (acc !! "cookies") "sessionid"))
  && truthy (acc !! "userAgent").

End AccountManager.

(** ** [src/modules/interactionModule.js] *)

Module InteractionModule.

Import Humanization.

Section Interaction.

(** What a client call resolves with (the request descriptor). *)
Context {Response : Type}.

(** A [TikTokClient] as the mass operations see it: [client.account.username]
    and the two calls they make, each of which resolves or rejects. *)
Record TikTokClient : Type := Client {
  username : string;
  client_postComment : string -> option string -> completion Response;
  client_likeComment : string -> Z -> completion Response
}.

(** An entry of the returned array.  Absent properties are [None]; the
    comment itself is [undefined] when the comment list is empty. *)
Record result : Type := Result {
  account : string;
  success : bool;
  comment : option (option string);
  response : option Response;
  error : option string
}.

Record CommentingConfig : Type := {
  videoId : option string;
  videoUrl : option string;
  comments : loc;
  randomizeOrder : bool;
  delayBetweenCommentsMin : option Z;
  delayBetweenCommentsMax : option Z
}.

Record LikingConfig : Type := {
  commentId : option string;
  delayBetweenLikesMin : option Z;
  delayBetweenLikesMax : option Z
}.

(** Computations of this module: arrays of strings, and the [results] array
    of the running mass operation as its local variable. *)
Abbreviation Run := (M string (list result)).

Definition is_digit (c : ascii) : bool :=
  (48 <=? nat_of_ascii c)%nat && (nat_of_ascii c <=? 57)%nat.

(** The longest run of digits at the head of [s] (the greedy [\d+]). *)
Fixpoint digits (s : string) : string :=
  match s with
  | String c s' => if is_digit c then String c (digits s') else EmptyString
  | EmptyString => EmptyString
  end.

(** [s] without the prefix [p], when it has that prefix. *)
Fixpoint after_prefix (p s : string) : option string :=
  match p, s with
  | EmptyString, _ => Some s
  | String a p', String b s' =>
      if Ascii.eqb a b then after_prefix p' s' else None
  | String _ _, EmptyString => None
  end.

(** [url.match(/\/video\/(\d+)/)]: the first capture of the leftmost match. *)
Fixpoint match_video (url : string) : option string :=
  match url with
  | EmptyString => None
  | String _ rest =>
      match after_prefix "/video/" url with
      | Some tail =>
          match digits tail with
          | EmptyString => match_video rest
          | d => Some d
          end
      | None => match_video rest
      end
  end.

(** [extractVideoId(url)].  With no [url] the call [url.match] throws, which
    the function catches and turns into [null]. *)
Definition extractVideoId (url : option string) : option string :=
  match url with
  | Some u => match_video u
  | None => None
  end.

(** [config.videoId || InteractionModule.extractVideoId(config.videoUrl)]. *)
Definition target_video (config : CommentingConfig) : option string :=
  if truthy_string (videoId config) then videoId config
  else extractVideoId (videoUrl config).

(** [results.push(entry)]. *)
Definition push (entry : result) : Run unit :=
  let! results := get_locals in
  set_locals (results ++ [entry]).

(** The instance method [postComment]: call the client, rethrow on failure. *)
Definition postComment (client : TikTokClient) (videoId : string)
    (commentText : option string) : Run Response :=
  try_catch
    (emit (PostComment (username client) videoId commentText) ;;;
     await (client_postComment client videoId commentText))
    (fun error => raise error).

(** The instance method [likeComment]: [this.client.likeComment(commentId, 1)]. *)
Definition likeComment (client : TikTokClient) (commentId : string)
  : Run Response :=
  try_catch
    (emit (LikeComment (username client) commentId 1) ;;;
     await (client_likeComment client commentId 1))
    (fun error => raise error).

(** [comments[i % comments.length]]: with no comments the index is [NaN] and
    the element [undefined]. *)
Definition cyclic (comments : list string) (i : nat) : option string :=
  match length comments with
  | O => None
  | S _ => comments !! (i mod length comments)%nat
  end.

(** The body of the loop of [massComment] for the session at index [i];
    [n] is [clients.length]. *)
Definition comment_session (videoId : string) (config : CommentingConfig)
    (comments : loc) (n i : nat) (client : TikTokClient) : Run unit :=
  try_catch
    (let! texts := read_array comments in
     let commentText := cyclic texts i in
     let! r := postComment client videoId commentText in
     push (Result (username client) true (Some commentText) (Some r) None) ;;;
     if Z.of_nat i <? Z.of_nat n - 1
     then randomDelay (or_default (delayBetweenCommentsMin config) 5000)
                      (or_default (delayBetweenCommentsMax config) 15000)
     else ret tt)
    (fun error =>
       push (Result (username client) false None None (Some (message error)))).

(** The loop of [massComment] from index [i] on; [rest] are the clients from
    [i] on. *)
Fixpoint comment_loop (videoId : string) (config : CommentingConfig)
    (comments : loc) (n i : nat) (rest : list TikTokClient) : Run unit :=
  match rest with
  | [] => ret tt
  | client :: rest' =>
      comment_session videoId config comments n i client ;;;
      comment_loop videoId config comments n (S i) rest'
  end.

(** [massComment(clients, config)].  The test [!videoId] holds for
    [undefined], [null] and the empty string. *)
Definition massComment (clients : list TikTokClient)
    (config : CommentingConfig) : Run (list result) :=
  match target_video config with
  | None => throw "No valid video ID provided"
  | Some videoId =>
      if String.eqb videoId "" then throw "No valid video ID provided"
      else
        let! configured := read_array (comments config) in
        let! copy := alloc_array configured in
        let! comments :=
          (if randomizeOrder config then shuffleArray copy else ret copy) in
        set_locals [] ;;;
        comment_loop videoId config comments (length clients) 0 clients ;;;
        get_locals
  end.

(** The body of the loop of [massLikeComment] for the session at index [i]. *)
Definition like_session (commentId : string) (config : LikingConfig)
    (n i : nat) (client : TikTokClient) : Run unit :=
  try_catch
    (let! r := likeComment client commentId in
     push (Result (username client) true None (Some r) None) ;;;
     if Z.of_nat i <? Z.of_nat n - 1
     then randomDelay (or_default (delayBetweenLikesMin config) 3000)
                      (or_default (delayBetweenLikesMax config) 10000)
     else ret tt)
    (fun error =>
       push (Result (username client) false None None (Some (message error)))).

(** The loop of [massLikeComment] from index [i] on. *)
Fixpoint like_loop (commentId : string) (config : LikingConfig)
    (n i : nat) (rest : list TikTokClient) : Run unit :=
  match rest with
  | [] => ret tt
  | client :: rest' =>
      like_session commentId config n i client ;;;
      like_loop commentId config n (S i) rest'
  end.

Definition massLikeComment (clients : list TikTokClient)
    (config : LikingConfig) : Run (list result) :=
  match commentId config with
  | None => throw "No comment ID provided"
  | Some commentId =>
      if String.eqb commentId "" then throw "No comment ID provided"
      else
        set_locals [] ;;;
        like_loop commentId config (length clients) 0 clients ;;;
        get_locals
  end.

(** *** Vocabulary for the statements below *)

(** The unit of work of the session at index [i] in [massComment], and of any
    session in [massLikeComment]: the one call that can reject. *)
Definition comment_work (videoId : string) (texts : list string) (i : nat)
    (client : TikTokClient) : completion Response :=
  client_postComment client videoId (cyclic texts i).

Definition like_work (commentId : string) (client : TikTokClient)
  : completion Response :=
  client_likeComment client commentId 1.

(** The entry pushed for a session whose unit of work completed with [c];
    [said] is the [comment] property of a successful entry. *)
Definition entry_of (client : TikTokClient) (said : option (option string))
    (c : completion Response) : result :=
  match c with
  | Normal r => Result (username client) true said (Some r) None
  | Throw e => Result (username client) false None None (Some (message e))
  end.

(** What happens after the call of a session and before the next session:
    nothing when the session [failed] or was the [last] one, otherwise one
    wait, within [lo .. hi] when these are ordered. *)
Definition gap_between (failed last : bool) (lo hi : Z) (gap : list event)
  : Prop :=
  if failed || last then gap = []
  else exists d, gap = [Wait d] /\ (lo <= hi -> lo <= d <= hi).

Definition is_last (n i : nat) : bool := negb (Z.of_nat i <? Z.of_nat n - 1).

End Interaction.

Arguments TikTokClient Response : clear implicits.
Arguments result Response : clear implicits.

End InteractionModule.

(** ** Concrete inputs used to run the model *)

Module Examples.

Import AccountManager InteractionModule.

Definition half : unit_draw := UnitDraw (1 # 2) eq_refl.
Definition zero : unit_draw := UnitDraw 0 eq_refl.
Definition nine_tenths : unit_draw := UnitDraw (9 # 10) eq_refl.

(** A source whose every draw is one half. *)
Definition halves (_ : nat) : unit_draw := half.

(** A source that starts 0.9, 0 and goes on with halves. *)
Definition mixed (n : nat) : unit_draw :=
  match n with
  | O => nine_tenths
  | S O => zero
  | _ => half
  end.

(** Location 1 holds the configured comments. *)
Definition three_comments : list string := ["a"; "b"; "c"].

Definition world_of (rnd : nat -> unit_draw) : world string (list (result string)) :=
  World (<[1%positive := three_comments]> ∅) rnd 0 [] [].

Definition empty_world : world string unit := World ∅ halves 0 [] tt.

Definition ok (name : string) : TikTokClient string :=
  Client name (fun _ _ => Normal "posted"%string) (fun _ _ => Normal "liked"%string).

Definition bad (name : string) : TikTokClient string :=
  Client name (fun _ _ => Throw (mkError "rate limited"))
         (fun _ _ => Throw (mkError "rate limited")).

(** Three sessions, the second of which fails at every call. *)
Definition sessions : list (TikTokClient string) := [ok "u1"; bad "u2"; ok "u3"].

Definition commenting (shuffle : bool) : CommentingConfig :=
  {| videoId := None;
     videoUrl := Some "https://x.tiktok.com/@u/video/123456"%string;
     comments := 1%positive;
     randomizeOrder := shuffle;
     delayBetweenCommentsMin := Some 7;
     delayBetweenCommentsMax := None |}.

Definition liking : LikingConfig :=
  {| commentId := Some "c9"%string;
     delayBetweenLikesMin := None;
     delayBetweenLikesMax := None |}.

Definition alice : Account :=
  <["username" := JString "alice"]>
    (<["sessionId" := JString "s1"]> (<["userAgent" := JString "UA"]> ∅)).

(** No [userAgent]. *)
Definition bob : Account :=
  <["username" := JString "bob"]> (<["sessionId" := JString "s2"]> ∅).

(** The session id only as a cookie, as the client constructor accepts it. *)
Definition carol : Account :=
  <["username" := JString "carol"]>
    (<["userAgent" := JString "UA"]>
       (<["cookies" := JObject (<["sessionid" := JString "s3"]> ∅)]> ∅)).

Definition registry : manager := Manager "./config.json" [alice; bob; carol; alice] [].

End Examples.

(** ** The rest of [src/utils/humanization.js] *)

Module HumanizationMore.

Import Humanization.

(** [a < b] on numbers. *)
Definition Qltb (a b : Q) : bool := negb (Qle_bool b a).

(** A step of a scroll pattern: [{action: 'scroll', amount, delay}] or
    [{action: 'pause', delay}]. *)
Inductive scroll_action : Type :=
| Scroll (amount delay : Z)
| Pause (delay : Z).

Definition action_delay (a : scroll_action) : Z :=
  match a with
  | Scroll _ delay => delay
  | Pause delay => delay
  end.

Record mouse_movement : Type := MouseMovement {
  mouse_x : Z;
  mouse_y : Z;
  mouse_duration : Z
}.

Section Functions.
Context {E L : Type}.

(** [shouldPerformAction(probability)]. *)
Definition shouldPerformAction (probability : Q) : M E L bool :=
  let! r := Math_random in
  ret (Qltb r probability).



(** The loop of [generateScrollPattern] with [n] scrolls still to add to
    the local array [pattern]. *)
Fixpoint scroll_pattern_loop (minSpeed maxSpeed : Z) (n : nat)
    (pattern : list scroll_action) : M E L (list scroll_action) :=
  match n with
  | O => ret pattern
  | S n' =>
      let! r1 := Math_random in
      let scrollAmount := Math_floor (r1 * 500) + 300 in
      let! r2 := Math_random in
      let speed := Math_floor (r2 * inject_Z (maxSpeed - minSpeed)) + minSpeed in
      let pattern := pattern ++ [Scroll scrollAmount speed] in
      let! r3 := Math_random in
      if Qltb r3 (3 # 10)
      then
        let! r4 := Math_random in
        scroll_pattern_loop minSpeed maxSpeed n'
          (pattern ++ [Pause (Math_floor (r4 * 4000) + 1000)])
      else scroll_pattern_loop minSpeed maxSpeed n' pattern
  end.

(** [generateScrollPattern(scrollCount, minSpeed, maxSpeed)]: the loop runs
    for [i = 0 .. scrollCount - 1], not at all when [scrollCount <= 0]. *)
Definition generateScrollPattern (scrollCount minSpeed maxSpeed : Z)
  : M E L (list scroll_action) :=
  scroll_pattern_loop minSpeed maxSpeed (Z.to_nat scrollCount) [].

(** [executeScrollPattern(pattern)]: wait [action.delay] after each step. *)
Fixpoint executeScrollPattern (pattern : list scroll_action) : M E L unit :=
  match pattern with
  | [] => ret tt
  | action :: rest => setTimeout (action_delay action) ;;; executeScrollPattern rest
  end.

(** [generateMouseMovement()]: the draws are made in the order x, y,
    duration. *)
Definition generateMouseMovement : M E L mouse_movement :=
  let! r1 := Math_random in
  let! r2 := Math_random in
  let! r3 := Math_random in
  ret (MouseMovement (Math_floor (r1 * 1920)) (Math_floor (r2 * 1080))
                     (Math_floor (r3 * 500) + 200)).


End Functions.

(** *** Vocabulary for the statements below *)

(** One round of [generateScrollPattern]: a scroll, perhaps followed by one
    pause. *)
Definition scroll_round (minSpeed maxSpeed : Z) (round : list scroll_action)
  : Prop :=
  exists amount delay,
    300 <= amount < 800
    /\ (minSpeed <= maxSpeed -> minSpeed <= delay <= maxSpeed)
    /\ (minSpeed < maxSpeed -> delay < maxSpeed)
    /\ (round = [Scroll amount delay]
        \/ exists p, 1000 <= p < 5000 /\ round = [Scroll amount delay; Pause p]).


End HumanizationMore.

(** ** The rest of [src/utils/accountManager.js] *)

Module AccountManagerMore.

Import AccountManager.

(** [acc.username === username] for a string [username]. *)
Definition has_username (username : string) (acc : Account) : bool :=
  match acc !! "username" with
  | Some (JString s) => String.eqb s username
  | _ => false
  end.

(** The first account with that user name and its index: what [find] and
    [findIndex] look for. *)
Definition find_account (m : manager) (username : string)
  : option (nat * Account) :=
  list_find (fun acc => has_username username acc = true) (accounts m).

(** [getAccounts()] and [getAccountCount()]. *)
Definition getAccounts (m : manager) : list Account := accounts m.
Definition getAccountCount (m : manager) : nat := length (accounts m).

(** [getAccount(username)]; [None] is [null]. *)
Definition getAccount (m : manager) (username : string) : option Account :=
  snd <$> find_account m username.

(** [updateAccount(username, updates)]: the stored entry is replaced by
    [{...entry, ...updates}], in which the properties of [updates] win. *)
Definition updateAccount (m : manager) (username : string) (updates : Account)
  : bool * manager :=
  match find_account m username with
  | None => (false, m)
  | Some (accountIndex, current) =>
      (true,
       Manager (configPath m)
               (<[accountIndex := updates ∪ current]> (accounts m))
               (console m))
  end.

Definition digit_value (c : ascii) : option nat :=
  if InteractionModule.is_digit c then Some (nat_of_ascii c - 48)%nat else None.

Fixpoint parse_digits (s : string) (value : nat) : option nat :=
  match s with
  | EmptyString => Some value
  | String c s' =>
      match digit_value c with
      | Some d => parse_digits s' (10 * value + d)%nat
      | None => None
      end
  end.

(** The index that a property name denotes on an array: a decimal numeral
    without leading zero. *)
Definition array_index (k : string) : option nat :=
  match k with
  | EmptyString => None
  | String "0" EmptyString => Some O
  | String "0" _ => None
  | _ => parse_digits k O
  end.

(** [v[k]] for an own property of a parsed value: a key of an object, an
    element or the length of an array, a character or the length of a
    string.  Inherited properties (the methods of the prototypes) are not
    values of the configuration and are read as [undefined]; none of them
    has a property [enabled]. *)
Definition own_property (v : json) (k : string) : option json :=
  match v with
  | JObject fields => fields !! k
  | JArray xs =>
      if String.eqb k "length" then Some (JNumber (inject_Z (Z.of_nat (length xs))))
      else
        match array_index k with
        | Some i => xs !! i
        | None => None
        end
  | JString s =>
      if String.eqb k "length"
      then Some (JNumber (inject_Z (Z.of_nat (String.length s))))
      else
        match array_index k with
        | Some i =>
            match String.get i s with
            | Some c => Some (JString (String c EmptyString))
            | None => None
            end
        | None => None
        end
  | _ => None
  end.

(** [getConfigSection(section)]: [this.config?.[section] || null], where
    [config] is [this.config] ([None] before the configuration is loaded). *)
Definition getConfigSection (config : option json) (section : string)
  : option json :=
  match config with
  | Some c =>
      if truthy (own_property c section) then own_property c section else None
  | None => None
  end.

(** [v || false]. *)
Definition or_false (v : option json) : json :=
  match v with
  | Some x => if truthy (Some x) then x else JBool false
  | None => JBool false
  end.

(** [isFeatureEnabled(section, feature)]: without a section the answer is
    [false]; with a truthy [feature] it is
    [configSection[feature]?.enabled || false], else
    [configSection.enabled || false]. *)
Definition isFeatureEnabled (config : option json) (section : string)
    (feature : option string) : json :=
  match getConfigSection config section with
  | None => JBool false
  | Some configSection =>
      match feature with
      | Some f =>
          if truthy_string feature
          then or_false (get_optional (own_property configSection f) "enabled")
          else or_false (own_property configSection "enabled")
      | None => or_false (own_property configSection "enabled")
      end
  end.

End AccountManagerMore.

(** ** [src/modules/warmingActivities.js] *)

Module WarmingActivities.

Import Humanization HumanizationMore.

(** The settings of the three activities and of the humanization section;
    [enabled] is the truthiness of the property, a number that is absent is
    [None]. *)
Record ScrollSettings : Type := {
  scroll_enabled : bool;
  minScrolls : option Z;
  maxScrolls : option Z;
  scrollSpeedMin : option Z;
  scrollSpeedMax : option Z
}.

Record VideoWatchSettings : Type := {
  videoWatch_enabled : bool;
  minVideos : option Z;
  maxVideos : option Z;
  minWatchTime : option Z;
  maxWatchTime : option Z
}.

Record SearchSettings : Type := {
  search_enabled : bool;
  queries : option (list string);
  minSearches : option Z;
  maxSearches : option Z
}.

Record Activities : Type := {
  scroll : option ScrollSettings;
  videoWatch : option VideoWatchSettings;
  search : option SearchSettings
}.

Record HumanizationSettings : Type := {
  pauseProbability : option Q;
  pauseDurationMin : option Z;
  pauseDurationMax : option Z;
  typingSpeedMin : option Z;
  typingSpeedMax : option Z;
  randomDelayMin : option Z;
  randomDelayMax : option Z
}.

Record WarmingConfig : Type := {
  activities : option Activities;
  humanization : option HumanizationSettings
}.

(** [config.activities || {}] and [config.humanization || {}], as the
    constructor stores them. *)
Definition activities_of (config : WarmingConfig) : Activities :=
  match activities config with
  | Some a => a
  | None => {| scroll := None; videoWatch := None; search := None |}
  end.

Definition humanization_of (config : WarmingConfig) : HumanizationSettings :=
  match humanization config with
  | Some h => h
  | None =>
      {| pauseProbability := None; pauseDurationMin := None;
         pauseDurationMax := None; typingSpeedMin := None;
         typingSpeedMax := None; randomDelayMin := None;
         randomDelayMax := None |}
  end.

(** [x || d] for an optional number ([undefined] and [0] are falsy). *)
Definition or_default_number (x : option Q) (d : Q) : Q :=
  match x with
  | Some q => if Qeq_bool q 0 then d else q
  | None => d
  end.

(** The calls an activity makes on its client. *)
Inductive client_call : Type :=
| GetFeed (account : string)
| Search (account : string) (query : option string).

Section Warming.

Context {Response : Type}.

(** A [TikTokClient] as the warming activities see it. *)
Record WarmClient : Type := {
  username : string;
  client_getFeed : completion Response;
  client_search : option string -> completion Response
}.

(** The local state of a run: the log of the calls made on clients, and the
    [results] array of [massWarmAccounts]. *)
Record warm_locals : Type := WarmLocals {
  calls : list client_call;
  results : list (InteractionModule.result Response)
}.

Abbreviation Run := (M string warm_locals).

Definition log_call (c : client_call) : Run unit :=
  let! l := get_locals in
  set_locals (WarmLocals (calls l ++ [c]) (results l)).

(** [results.push(entry)]. *)
Definition push (entry : InteractionModule.result Response) : Run unit :=
  let! l := get_locals in
  set_locals (WarmLocals (calls l) (results l ++ [entry])).

(** [this.client.getFeed()] and [this.client.search(query)]. *)
Definition call_getFeed (client : WarmClient) : Run Response :=
  log_call (GetFeed (username client)) ;;;
  await (client_getFeed client).

Definition call_search (client : WarmClient) (query : option string)
  : Run Response :=
  log_call (Search (username client) query) ;;;
  await (client_search client query).

(** [if (cond) { await body }]. *)
Definition when (cond : bool) (body : Run unit) : Run unit :=
  if cond then body else ret tt.

(** [performScrolling()]. *)
Definition performScrolling (config : WarmingConfig) : Run unit :=
  match scroll (activities_of config) with
  | Some s =>
      if scroll_enabled s
      then
        let! scrollCount :=
          randomInt (or_default (minScrolls s) 5) (or_default (maxScrolls s) 15) in
        let! pattern :=
          generateScrollPattern scrollCount
            (or_default (scrollSpeedMin s) 1000)
            (or_default (scrollSpeedMax s) 3000) in
        executeScrollPattern pattern
      else ret tt
  | None => ret tt
  end.

(** The loop of [performVideoWatching] with [n] videos still to watch. *)
Fixpoint watch_loop (v : VideoWatchSettings) (h : HumanizationSettings)
    (n : nat) : Run unit :=
  match n with
  | O => ret tt
  | S n' =>
      let! watchTime :=
        randomInt (or_default (minWatchTime v) 3000)
                  (or_default (maxWatchTime v) 30000) in
      randomDelay watchTime (watchTime + 1000) ;;;
      let! next := shouldPerformAction (7 # 10) in
      when next (randomDelay 500 1500) ;;;
      let! like := shouldPerformAction (2 # 10) in
      when like (randomDelay 300 800) ;;;
      let! pause :=
        shouldPerformAction (or_default_number (pauseProbability h) (3 # 10)) in
      when pause
        (let! pauseDuration :=
           randomInt (or_default (pauseDurationMin h) 1000)
                     (or_default (pauseDurationMax h) 5000) in
         randomDelay pauseDuration (pauseDuration + 500)) ;;;
      watch_loop v h n'
  end.

(** [performVideoWatching()]: a failure of [getFeed] is only logged. *)
Definition performVideoWatching (config : WarmingConfig) (client : WarmClient)
  : Run unit :=
  match videoWatch (activities_of config) with
  | Some v =>
      if videoWatch_enabled v
      then
        let! videoCount :=
          randomInt (or_default (minVideos v) 3) (or_default (maxVideos v) 10) in
        try_catch (call_getFeed client ;;; ret tt) (fun _ => ret tt) ;;;
        watch_loop v (humanization_of config) (Z.to_nat videoCount)
      else ret tt
  | None => ret tt
  end.

(** The loop of [performSearch] at index [i], with [n] searches still to
    make out of [searchCount]. *)
Fixpoint search_loop (h : HumanizationSettings) (client : WarmClient)
    (queries : list string) (searchCount : Z) (n i : nat) : Run unit :=
  match n with
  | O => ret tt
  | S n' =>
      let! query := randomChoice queries in
      try_catch (call_search client query ;;; ret tt) (fun _ => ret tt) ;;;
      randomDelay (or_default (typingSpeedMin h) 100)
                  (or_default (typingSpeedMax h) 300) ;;;
      let! browseTime := randomInt 5000 15000 in
      randomDelay browseTime (browseTime + 1000) ;;;
      when (Z.of_nat i <? searchCount - 1)
        (randomDelay (or_default (randomDelayMin h) 2000)
                     (or_default (randomDelayMax h) 8000)) ;;;
      search_loop h client queries searchCount n' (S i)
  end.

(** [this.activities.search.queries || ['trending', 'funny', 'music']]; an
    empty array is truthy and is kept. *)
Definition queries_of (s : SearchSettings) : list string :=
  match queries s with
  | Some qs => qs
  | None => ["trending"; "funny"; "music"]%string
  end.

(** [performSearch()]: a failure of [search] is only logged. *)
Definition performSearch (config : WarmingConfig) (client : WarmClient)
  : Run unit :=
  match search (activities_of config) with
  | Some s =>
      if search_enabled s
      then
        let! searchCount :=
          randomInt (or_default (minSearches s) 1) (or_default (maxSearches s) 3) in
        search_loop (humanization_of config) client (queries_of s) searchCount
                    (Z.to_nat searchCount) 0
      else ret tt
  | None => ret tt
  end.

Definition is_enabled_scroll (config : WarmingConfig) : bool :=
  match scroll (activities_of config) with
  | Some s => scroll_enabled s
  | None => false
  end.

Definition is_enabled_videoWatch (config : WarmingConfig) : bool :=
  match videoWatch (activities_of config) with
  | Some v => videoWatch_enabled v
  | None => false
  end.

Definition is_enabled_search (config : WarmingConfig) : bool :=
  match search (activities_of config) with
  | Some s => search_enabled s
  | None => false
  end.

(** [performRandomActivity()]. *)
Definition performRandomActivity (config : WarmingConfig) (client : WarmClient)
  : Run unit :=
  let availableActivities :=
    (if is_enabled_scroll config then ["scroll"%string] else [])
    ++ (if is_enabled_videoWatch config then ["videoWatch"%string] else [])
    ++ (if is_enabled_search config then ["search"%string] else []) in
  if (length availableActivities =? 0)%nat then ret tt
  else
    let! activity := randomChoice availableActivities in
    match activity with
    | Some a =>
        if String.eqb a "scroll" then performScrolling config
        else if String.eqb a "videoWatch" then performVideoWatching config client
        else if String.eqb a "search" then performSearch config client
        else ret tt
    | None => ret tt
    end.

(** [performWarmingSession()]. *)
Definition performWarmingSession (config : WarmingConfig) (client : WarmClient)
  : Run unit :=
  try_catch
    (randomDelay (or_default (randomDelayMin (humanization_of config)) 2000)
                 (or_default (randomDelayMax (humanization_of config)) 8000) ;;;
     performScrolling config ;;;
     randomDelay 3000 8000 ;;;
     performVideoWatching config client ;;;
     randomDelay 3000 8000 ;;;
     performSearch config client)
    (fun error => raise error).

(** The body of the loop of [massWarmAccounts] for the account at index [i]. *)
Definition warm_session (config : WarmingConfig) (n i : nat)
    (client : WarmClient) : Run unit :=
  try_catch
    (performWarmingSession config client ;;;
     push (InteractionModule.Result (username client) true None None None) ;;;
     when (Z.of_nat i <? Z.of_nat n - 1)
       (let! delay := randomInt 10000 30000 in
        randomDelay delay (delay + 1000)))
    (fun error =>
       push (InteractionModule.Result (username client) false None None
                                      (Some (message error)))).

Fixpoint warm_loop (config : WarmingConfig) (n i : nat)
    (rest : list WarmClient) : Run unit :=
  match rest with
  | [] => ret tt
  | client :: rest' =>
      warm_session config n i client ;;;
      warm_loop config n (S i) rest'
  end.

(** [massWarmAccounts(clients, config)]. *)
Definition massWarmAccounts (clients : list WarmClient) (config : WarmingConfig)
  : Run (list (InteractionModule.result Response)) :=
  (let! l := get_locals in set_locals (WarmLocals (calls l) [])) ;;;
  warm_loop config (length clients) 0 clients ;;;
  let! l := get_locals in
  ret (results l).

(** *** Vocabulary for the statements below *)

(** From [w] to [w']: the heap and the random source are the same, draws
    were only consumed, the trace grew by the waits [waits], the call log by
    [cs], and the [results] array is as it was. *)
Definition advance (w w' : world string warm_locals) (waits : list Z)
    (cs : list client_call) : Prop :=
  heap w' = heap w /\ random w' = random w /\ (cursor w <= cursor w')%nat
  /\ trace w' = trace w ++ (Wait <$> waits)
  /\ calls (locals w') = calls (locals w) ++ cs
  /\ results (locals w') = results (locals w).

(** [c] run in [w] returns normally, having advanced the world by waits and
    calls that, with the value returned, satisfy [post]. *)
Definition returns {R : Type} (c : Run R) (w : world string warm_locals)
    (post : R -> list Z -> list client_call -> Prop) : Prop :=
  exists v w' waits cs,
    c w = (Normal v, w') /\ advance w w' waits cs /\ post v waits cs.

(** The waits of one watched video: the watch itself, then at most three
    shorter waits (scroll to the next video, like, pause). *)
Definition video_waits (v : VideoWatchSettings) (waits : list Z) : Prop :=
  exists d rest,
    waits = d :: rest /\ (length rest <= 3)%nat
    /\ (or_default (minWatchTime v) 3000 <= or_default (maxWatchTime v) 30000 ->
        or_default (minWatchTime v) 3000 <= d
        <= or_default (maxWatchTime v) 30000 + 1000).

(** The argument of one search: an element of [queries], or [undefined]
    when [queries] is empty. *)
Definition query_from (queries : list string) (q : option string) : Prop :=
  match queries with
  | [] => q = None
  | _ :: _ => exists s, q = Some s /\ s ∈ queries
  end.

(** The waits that follow one search: typing, browsing for 5 to 16
    seconds, and at most one more wait before the next search. *)
Definition search_waits (h : HumanizationSettings) (waits : list Z) : Prop :=
  exists t b gap,
    waits = t :: b :: gap /\ (length gap <= 1)%nat
    /\ 5000 <= b <= 16000
    /\ (or_default (typingSpeedMin h) 100 <= or_default (typingSpeedMax h) 300 ->
        or_default (typingSpeedMin h) 100 <= t
        <= or_default (typingSpeedMax h) 300).

(** The number drawn by [randomInt(lo, hi)] as a loop count. *)
Definition count_between (lo hi : Z) (n : nat) : Prop :=
  exists count : Z, n = Z.to_nat count /\ (lo <= hi -> lo <= count <= hi).

(** What [performScrolling] waits for: nothing when scrolling is off,
    otherwise the delays of a generated pattern. *)
Definition scrolling_outcome (config : WarmingConfig) (ws : list Z) : Prop :=
  match scroll (activities_of config) with
  | Some s =>
      if scroll_enabled s
      then
        exists rounds,
          ws = action_delay <$> concat rounds
          /\ count_between (or_default (minScrolls s) 5)
                           (or_default (maxScrolls s) 15) (length rounds)
          /\ Forall (scroll_round (or_default (scrollSpeedMin s) 1000)
                                  (or_default (scrollSpeedMax s) 3000))
                    rounds
      else ws = []
  | None => ws = []
  end.

(** What [performVideoWatching] does: nothing when watching is off,
    otherwise one [getFeed] and the waits of each watched video. *)
Definition watching_outcome (config : WarmingConfig) (client : WarmClient)
    (ws : list Z) (cs : list client_call) : Prop :=
  match videoWatch (activities_of config) with
  | Some v =>
      if videoWatch_enabled v
      then
        cs = [GetFeed (username client)]
        /\ exists chunks,
            ws = concat chunks
            /\ count_between (or_default (minVideos v) 3)
                             (or_default (maxVideos v) 10) (length chunks)
            /\ Forall (video_waits v) chunks
      else ws = [] /\ cs = []
  | None => ws = [] /\ cs = []
  end.

(** What [performSearch] does: nothing when searching is off, otherwise
    the searches [qs], each followed by its waits. *)
Definition searching_outcome (config : WarmingConfig) (client : WarmClient)
    (ws : list Z) (cs : list client_call) : Prop :=
  match search (activities_of config) with
  | Some s =>
      if search_enabled s
      then
        exists qs chunks,
          cs = Search (username client) <$> qs
          /\ count_between (or_default (minSearches s) 1)
                           (or_default (maxSearches s) 3) (length qs)
          /\ Forall (query_from (queries_of s)) qs
          /\ ws = concat chunks /\ length chunks = length qs
          /\ Forall (search_waits (humanization_of config)) chunks
          /\ length ws = (3 * length qs - 1)%nat
      else ws = [] /\ cs = []
  | None => ws = [] /\ cs = []
  end.

(** What a whole warming session does: three waits that frame the three
    activities, in the fixed order. *)
Definition session_outcome (config : WarmingConfig) (client : WarmClient)
    (ws : list Z) (cs : list client_call) : Prop :=
  exists d1 ws1 d2 ws2 cs2 d3 ws3 cs3,
    ws = d1 :: ws1 ++ d2 :: ws2 ++ d3 :: ws3
    /\ cs = cs2 ++ cs3
    /\ (or_default (randomDelayMin (humanization_of config)) 2000
        <= or_default (randomDelayMax (humanization_of config)) 8000 ->
        or_default (randomDelayMin (humanization_of config)) 2000 <= d1
        <= or_default (randomDelayMax (humanization_of config)) 8000)
    /\ 3000 <= d2 <= 8000 /\ 3000 <= d3 <= 8000
    /\ scrolling_outcome config ws1
    /\ watching_outcome config client ws2 cs2
    /\ searching_outcome config client ws3 cs3.

(** The waits of one account of [massWarmAccounts]: those of its session,
    then a wait of 10 to 31 seconds unless the account is the last. *)
Definition account_waits (config : WarmingConfig) (client : WarmClient)
    (last : bool) (ws : list Z) (cs : list client_call) : Prop :=
  exists session gap,
    ws = session ++ gap
    /\ session_outcome config client session cs
    /\ if last then gap = []
       else exists d, gap = [d] /\ 10000 <= d <= 31000.

End Warming.

Arguments WarmClient Response : clear implicits.
Arguments warm_locals Response : clear implicits.

End WarmingActivities.

(** ** The orchestrator [AccountWarmer] and the constructor of
       [TikTokClient] *)

Module AccountWarmer.

Import AccountManager AccountManagerMore Humanization.

(** What [new TikTokClient(account)] stores. *)
Record client_fields : Type := ClientFields {
  client_account : Account;
  client_userAgent : option json;
  client_cookies : json;
  client_sessionId_field : option json;
  client_msToken : option json
}.

(** [x || y] on values that may be [undefined]. *)
Definition or_else (x y : option json) : option json :=
  if truthy x then x else y.

Definition new_TikTokClient (acc : Account) : client_fields :=
  {| client_account := acc;
     client_userAgent := acc !! "userAgent";
     client_cookies :=
       match or_else (acc !! "cookies") (Some (JObject ∅)) with
       | Some c => c
       | None => JObject ∅
       end;
     client_sessionId_field := client_sessionId acc;
     client_msToken :=
       or_else (acc !! "msToken") (get_optional (acc !! "cookies") "msToken") |}.

(** [initialize()], from the point where [loadConfig] has stored the
    accounts: the valid accounts are kept, and one client is made of each. *)
Definition initialize (m : manager) : completion (list client_fields) * manager :=
  let '(validAccounts, m') := getValidAccounts m in
  if (length validAccounts =? 0)%nat
  then (Throw (mkError "No valid accounts found. Please check your config.json"),
        m')
  else (Normal (new_TikTokClient <$> validAccounts), m').

(** What a [run...] method leaves in its slot of the summary: [null] when
    [runAll] skipped it, [undefined] when the method itself found the
    feature off, else the report of the mass operation. *)
Inductive phase_result (R : Type) : Type :=
| Null
| Undefined
| Report (report : R).
Arguments Null {R}.
Arguments Undefined {R}.
Arguments Report {R} report.

Record summary (R : Type) : Type := Summary {
  warming : phase_result R;
  profileUpdates : phase_result R;
  massCommenting : phase_result R;
  massCommentLiking : phase_result R
}.
Arguments Summary {R} warming profileUpdates massCommenting massCommentLiking.
Arguments warming {R} s.
Arguments profileUpdates {R} s.
Arguments massCommenting {R} s.
Arguments massCommentLiking {R} s.

Section Orchestration.

Context {E L R : Type}.

(** The four mass operations on [this.clients], as functions of the
    configuration section they are given. *)
Variable massWarmAccounts : json -> M E L R.
Variable massUpdateProfiles : json -> M E L R.
Variable massComment : json -> M E L R.
Variable massLikeComment : json -> M E L R.

(** The body shared by the four [run...] methods: [if (!cfg?.enabled)
    return;] and then the mass operation on [cfg]. *)
Definition run_phase (operation : json -> M E L R) (cfg : option json)
  : M E L (phase_result R) :=
  if negb (truthy (get_optional cfg "enabled")) then ret Undefined
  else
    match cfg with
    | Some c => let! results := operation c in ret (Report results)
    | None => ret Undefined
    end.

Definition runWarming (config : option json) : M E L (phase_result R) :=
  run_phase massWarmAccounts (getConfigSection config "warming").

Definition runProfileUpdates (config : option json) : M E L (phase_result R) :=
  run_phase massUpdateProfiles (getConfigSection config "profile").

Definition runMassCommenting (config : option json) : M E L (phase_result R) :=
  run_phase massComment
    (get_optional (getConfigSection config "massActions") "commenting").

Definition runMassCommentLiking (config : option json)
  : M E L (phase_result R) :=
  run_phase massLikeComment
    (get_optional (getConfigSection config "massActions") "commentLiking").

Definition feature_on (config : option json) (section : string)
    (feature : option string) : bool :=
  truthy (Some (isFeatureEnabled config section feature)).

(** [runAll()]. *)
Definition runAll (config : option json) : M E L (summary R) :=
  try_catch
    (let! warming :=
       (if feature_on config "warming" None
        then runWarming config else ret Null) in
     let! profileUpdates :=
       (if feature_on config "profile" None
        then randomDelay 5000 10000 ;;; runProfileUpdates config
        else ret Null) in
     let! massCommenting :=
       (if feature_on config "massActions" (Some "commenting"%string)
        then randomDelay 5000 10000 ;;; runMassCommenting config
        else ret Null) in
     let! massCommentLiking :=
       (if feature_on config "massActions" (Some "commentLiking"%string)
        then randomDelay 5000 10000 ;;; runMassCommentLiking config
        else ret Null) in
     ret (Summary warming profileUpdates massCommenting massCommentLiking))
    (fun error => raise error).

End Orchestration.

(** *** Vocabulary for the statements below *)


End AccountWarmer.

(** ** [src/modules/profileManager.js] *)

Module ProfileManager.

Import Humanization.

(** The settings the updates read; [updateAvatar] and [updateBio] are the
    truthiness of the properties. *)
Record ProfileConfig : Type := {
  updateAvatar : bool;
  updateBio : bool;
  delayBetweenAccountsMin : option Z;
  delayBetweenAccountsMax : option Z
}.

(** The calls a profile update makes: on the file system and on its
    client. *)
Inductive profile_call : Type :=
| ReadFile (path : string)
| UploadAvatar (account : string)
| UpdateBio (account : string) (bio : string).

Section Profiles.

(** What a client call resolves with, and the content of an image file. *)
Context {Response Data : Type}.

(** [fs.readFile(avatarPath)], and what [loadAvatars()] and [loadBios()]
    resolve with (both catch their own errors and then give []): the paths
    of the image files, and the lines of the bio file or the configured
    [bioLines], taken to be strings. *)
Variable readFile : string -> completion Data.
Variable loadAvatars : list string.
Variable loadBios : list string.

(** A [TikTokClient] as the profile updates see it; [updateProfile] is
    given [{bio: bioText}]. *)
Record ProfileClient : Type := {
  username : string;
  client_uploadAvatar : Data -> completion Response;
  client_updateProfile : string -> completion Response
}.

(** The [results] object of [updateProfile]: [{avatar, bio}], each [null]
    ([None]) or a response. *)
Definition profile_result : Type := (option Response * option Response)%type.

Record profile_locals : Type := ProfileLocals {
  calls : list profile_call;
  results : list (InteractionModule.result profile_result)
}.

Abbreviation Run := (M string profile_locals).

Definition log_call (c : profile_call) : Run unit :=
  let! l := get_locals in
  set_locals (ProfileLocals (calls l ++ [c]) (results l)).

(** [results.push(entry)]. *)
Definition push (entry : InteractionModule.result profile_result) : Run unit :=
  let! l := get_locals in
  set_locals (ProfileLocals (calls l) (results l ++ [entry])).

(** The instance method [updateAvatar(avatarPath)]: read the image, upload
    it, rethrow on failure. *)
Definition update_avatar (client : ProfileClient) (avatarPath : string)
  : Run Response :=
  try_catch
    (log_call (ReadFile avatarPath) ;;;
     let! imageData := await (readFile avatarPath) in
     log_call (UploadAvatar (username client)) ;;;
     await (client_uploadAvatar client imageData))
    (fun error => raise error).

(** The instance method [updateBio(bioText)]. *)
Definition update_bio (client : ProfileClient) (bioText : string)
  : Run Response :=
  try_catch
    (log_call (UpdateBio (username client) bioText) ;;;
     await (client_updateProfile client bioText))
    (fun error => raise error).

(** [updateProfile({avatarPath, bioText})]: [null] and the empty string are
    falsy. *)
Definition updateProfile (config : ProfileConfig) (client : ProfileClient)
    (avatarPath bioText : option string) : Run profile_result :=
  try_catch
    (let! avatar :=
       match avatarPath with
       | Some p =>
           if updateAvatar config && negb (String.eqb p "")
           then randomDelay 2000 5000 ;;;
                let! r := update_avatar client p in ret (Some r)
           else ret None
       | None => ret None
       end in
     let! bio :=
       match bioText with
       | Some b =>
           if updateBio config && negb (String.eqb b "")
           then randomDelay 2000 5000 ;;;
                let! r := update_bio client b in ret (Some r)
           else ret None
       | None => ret None
       end in
     ret (avatar, bio))
    (fun error => raise error).

(** [xs.length > 0 ? randomChoice(xs) : null]. *)
Definition choose (xs : list string) : Run (option string) :=
  if (0 <? length xs)%nat then randomChoice xs else ret None.

(** The body of the loop of [massUpdateProfiles] for the account at index
    [i]; [n] is [clients.length]. *)
Definition profile_session (config : ProfileConfig) (avatars bios : list string)
    (n i : nat) (client : ProfileClient) : Run unit :=
  try_catch
    (let! avatarPath := choose avatars in
     let! bioText := choose bios in
     let! result := updateProfile config client avatarPath bioText in
     push (InteractionModule.Result (username client) true None (Some result)
                                    None) ;;;
     if Z.of_nat i <? Z.of_nat n - 1
     then randomDelay (or_default (delayBetweenAccountsMin config) 5000)
                      (or_default (delayBetweenAccountsMax config) 15000)
     else ret tt)
    (fun error =>
       push (InteractionModule.Result (username client) false None None
                                      (Some (message error)))).

Fixpoint profile_loop (config : ProfileConfig) (avatars bios : list string)
    (n i : nat) (rest : list ProfileClient) : Run unit :=
  match rest with
  | [] => ret tt
  | client :: rest' =>
      profile_session config avatars bios n i client ;;;
      profile_loop config avatars bios n (S i) rest'
  end.

(** [massUpdateProfiles(clients, config)]: the candidates are loaded once,
    and only for the updates that are on. *)
Definition massUpdateProfiles (clients : list ProfileClient)
    (config : ProfileConfig)
  : Run (list (InteractionModule.result profile_result)) :=
  let avatars := if updateAvatar config then loadAvatars else [] in
  let bios := if updateBio config then loadBios else [] in
  (let! l := get_locals in set_locals (ProfileLocals (calls l) [])) ;;;
  profile_loop config avatars bios (length clients) 0 clients ;;;
  let! l := get_locals in
  ret (results l).

(** *** Vocabulary for the statements below *)

(** The candidate picked for one account: an element of the list, or
    [null] when the list is empty. *)
Definition picked_from (xs : list string) (x : option string) : Prop :=
  match xs with
  | [] => x = None
  | _ :: _ => exists s, x = Some s /\ s ∈ xs
  end.

(** Whether [updateProfile] attempts the avatar, and the bio, for the
    candidates it is given. *)
Definition wants_avatar (config : ProfileConfig) (a : option string) : bool :=
  match a with
  | Some p => updateAvatar config && negb (String.eqb p "")
  | None => false
  end.

Definition wants_bio (config : ProfileConfig) (b : option string) : bool :=
  match b with
  | Some t => updateBio config && negb (String.eqb t "")
  | None => false
  end.

(** The outcome of the avatar step: the file is read, then uploaded. *)
Definition avatar_work (client : ProfileClient) (p : string)
  : completion Response :=
  match readFile p with
  | Normal data => client_uploadAvatar client data
  | Throw e => Throw e
  end.

(** The unit of work of one account, for the candidates [a] and [b]: the
    avatar step if wanted, then, unless that threw, the bio step if wanted. *)
Definition profile_work (config : ProfileConfig) (client : ProfileClient)
    (a b : option string) : completion profile_result :=
  match a, wants_avatar config a with
  | Some p, true =>
      match avatar_work client p with
      | Normal r =>
          match b, wants_bio config b with
          | Some t, true =>
              match client_updateProfile client t with
              | Normal r' => Normal (Some r, Some r')
              | Throw e => Throw e
              end
          | _, _ => Normal (Some r, None)
          end
      | Throw e => Throw e
      end
  | _, _ =>
      match b, wants_bio config b with
      | Some t, true =>
          match client_updateProfile client t with
          | Normal r' => Normal (None, Some r')
          | Throw e => Throw e
          end
      | _, _ => Normal (None, None)
      end
  end.

(** The calls of that unit of work, in order. *)
Definition profile_calls (config : ProfileConfig) (client : ProfileClient)
    (a b : option string) : list profile_call :=
  let bio_calls :=
    match b, wants_bio config b with
    | Some t, true => [UpdateBio (username client) t]
    | _, _ => []
    end in
  match a, wants_avatar config a with
  | Some p, true =>
      match readFile p with
      | Normal data =>
          [ReadFile p; UploadAvatar (username client)]
          ++ (if raises (client_uploadAvatar client data) then [] else bio_calls)
      | Throw _ => [ReadFile p]
      end
  | _, _ => bio_calls
  end.

(** How many of the two steps [updateProfile] starts, each after a wait of
    its own: the bio step is not started when the avatar step threw. *)
Definition avatar_fails (config : ProfileConfig) (client : ProfileClient)
    (a : option string) : bool :=
  match a with
  | Some p => wants_avatar config a && raises (avatar_work client p)
  | None => false
  end.

Definition steps_started (config : ProfileConfig) (client : ProfileClient)
    (a b : option string) : nat :=
  ((if wants_avatar config a then 1 else 0)
   + (if wants_bio config b && negb (avatar_fails config client a)
      then 1 else 0))%nat.

(** The entry pushed for an account whose unit of work completed with [c]. *)
Definition profile_entry (client : ProfileClient)
    (c : completion profile_result) : InteractionModule.result profile_result :=
  match c with
  | Normal r => InteractionModule.Result (username client) true None (Some r) None
  | Throw e =>
      InteractionModule.Result (username client) false None None
                               (Some (message e))
  end.

End Profiles.

Arguments ProfileClient Response Data : clear implicits.
Arguments profile_locals Response : clear implicits.

End ProfileManager.

(** ** More concrete inputs *)

Module MoreExamples.

Import InteractionModule.

(** Location 1 holds an empty list of comments. *)
Definition world_without_comments
  : world string (list (result string)) :=
  World (<[1%positive := []]> ∅) Examples.halves 0 [] [].

(** A configuration whose only section is an empty [warming]. *)
Definition idle_config : option json :=
  Some (JObject (<["warming" := JObject ∅]> ∅)).

(** A mass operation that always throws. *)
Definition failing_phase (_ : json) : M string unit unit :=
  throw "operation failed".

(** Profile clients that accept every call, a file system on which no file
    can be read, and a world with the draws of [Examples.halves]. *)
Definition profile_client (name : string)
  : ProfileManager.ProfileClient string unit :=
  {| ProfileManager.username := name;
     ProfileManager.client_uploadAvatar := fun _ => Normal "uploaded"%string;
     ProfileManager.client_updateProfile := fun _ => Normal "updated"%string |}.

Definition no_file (_ : string) : completion unit :=
  Throw (mkError "ENOENT").

Definition profile_world : world string (ProfileManager.profile_locals string) :=
  World ∅ Examples.halves 0 [] (ProfileManager.ProfileLocals [] []).

Definition update_everything : ProfileManager.ProfileConfig :=
  ProfileManager.Build_ProfileConfig true true None None.

End MoreExamples.

(** * Properties *)

Module JSFacts.

Lemma draw_bounds (r : unit_draw) : (0 <= r)%Q /\ (r < 1)%Q.
Proof.
  destruct r as [q Hq]; simpl.
  apply andb_prop in Hq as [Hlo Hhi].
  split.
  - by apply Qle_bool_iff.
  - apply Qnot_le_lt; intros Hle.
    apply Qle_bool_iff in Hle. by rewrite Hle in Hhi.
Qed.

(** [floor (r * n)] is one of [0 .. n-1] when [n] is a positive integer. *)
Lemma floor_scaled_range (r : unit_draw) (n : Z) :
  0 < n -> 0 <= Math_floor (r * inject_Z n) < n.
Proof.
  intros Hn. destruct (draw_bounds r) as [Hlo Hhi].
  assert (Hn' : (inject_Z 0 < inject_Z n)%Q) by (by rewrite <- Zlt_Qlt).
  change (inject_Z 0) with 0%Q in Hn'.
  unfold Math_floor; split.
  - change 0 with (Qfloor (inject_Z 0)) at 1.
    apply Qfloor_resp_le. change (inject_Z 0) with 0%Q.
    apply Qmult_le_0_compat; [exact Hlo | by apply Qlt_le_weak].
  - rewrite Zlt_Qlt.
    eapply Qle_lt_trans; [apply Qfloor_le |].
    apply Qlt_le_trans with (1 * inject_Z n)%Q.
    + by apply Qmult_lt_compat_r.
    + rewrite Qmult_1_l. apply Qle_refl.
Qed.

Lemma floor_scaled_zero (r : Q) : Math_floor (r * inject_Z 0) = 0.
Proof.
  unfold Math_floor.
  rewrite (Qfloor_comp (r * inject_Z 0) (inject_Z 0)); [apply Qfloor_Z |].
  change (inject_Z 0) with 0%Q. ring.
Qed.

Lemma index_in_range {A : Type} (xs : list A) (i : Z) :
  0 <= i < Z.of_nat (length xs) -> exists x, index xs i = Some x /\ x ∈ xs.
Proof.
  intros [Hlo Hhi]. unfold index.
  destruct (Z.ltb_spec i 0) as [Hneg | _]; [lia |].
  destruct (lookup_lt_is_Some_2 xs (Z.to_nat i)) as [x Hx]; [lia |].
  exists x; split; [exact Hx |].
  apply list_elem_of_lookup. by exists (Z.to_nat i).
Qed.

End JSFacts.

Module HumanizationFacts.

Import JSFacts Humanization.

Section Facts.
Context {E L : Type}.
Implicit Types (w : world E L).

(** The world after one more draw. *)
Lemma Math_random_run w :
  Math_random w =
    (Normal (random w (cursor w)),
     World (heap w) (random w) (S (cursor w)) (trace w) (locals w)).
Proof. reflexivity. Qed.

Lemma pick_in_range (r : unit_draw) (min max : Z) :
  min <= max ->
  min <= Math_floor (r * inject_Z (max - min + 1)) + min <= max.
Proof.
  intros Hle.
  pose proof (floor_scaled_range r (max - min + 1)) as Hfloor.
  lia.
Qed.

(** C6: for integers [min <= max], [randomInt(min, max)] returns, and
    [randomDelay(min, max)] waits, an integer of the closed interval
    [[min, max]]; when [min = max] it is that number. *)
Theorem randomInt_randomDelay_in_range w (min max : Z) :
  min <= max ->
  (exists v w', randomInt min max w = (Normal v, w')
     /\ min <= v <= max /\ (min = max -> v = min))
  /\ (exists d w', randomDelay min max w = (Normal tt, w')
        /\ trace w' = trace w ++ [Wait d]
        /\ min <= d <= max /\ (min = max -> d = min)).
Proof.
  intros Hle.
  pose proof (pick_in_range (random w (cursor w)) min max Hle) as Hpick.
  split.
  - eexists _, _. split; [reflexivity |]. split; [exact Hpick | lia].
  - exists (Math_floor (random w (cursor w) * inject_Z (max - min + 1)) + min).
    eexists. split; [by cbv [randomDelay bind Math_random setTimeout emit] |].
    split; [reflexivity |].
    split; [exact Hpick | lia].
Qed.

(** C4 as the code has it: [randomChoice] never throws; on the empty array
    it returns [undefined], and on a non-empty array one of its elements. *)
Theorem randomChoice_returns :
  (forall w, exists w', randomChoice [] w = (Normal None, w'))
  /\ (forall w (x : E) (xs : list E),
        exists y w', randomChoice (x :: xs) w = (Normal (Some y), w')
                     /\ y ∈ x :: xs).
Proof.
  split.
  - intros w. eexists. unfold randomChoice, bind, ret.
    rewrite Math_random_run. change (Z.of_nat (length [])) with 0.
    by rewrite floor_scaled_zero.
  - intros w x xs.
    destruct (index_in_range (x :: xs)
                (Math_floor (random w (cursor w)
                             * inject_Z (Z.of_nat (length (x :: xs))))))
      as (y & Hy & Hin).
    { apply floor_scaled_range. simpl length. lia. }
    exists y. eexists. split; [| exact Hin].
    unfold randomChoice, bind, ret. rewrite Math_random_run. by rewrite Hy.
Qed.



(** The upper end of that interval is reached: a clip of one millisecond
    is watched for [0 = floor(0.5)] milliseconds whatever the draw. *)
Lemma generateWatchTime_upper_end_reached w :
  exists w', generateWatchTime (1 # 1000) 0 (1 # 2) w
             = (Normal (Math_floor ((1 # 1000) * 1000 * (1 # 2))), w').
Proof.
  eexists. unfold generateWatchTime, bind, ret. rewrite Math_random_run.
  do 2 f_equal.
  destruct (draw_bounds (random w (cursor w))) as [H0 H1].
  apply Z.le_antisymm.
  - apply Qfloor_resp_le. nra.
  - change (Math_floor ((1 # 1000) * 1000 * (1 # 2))) with (Qfloor 0).
    apply Qfloor_resp_le. nra.
Qed.

(** One exchange inside the array: the heap cell is replaced by a
    permutation of it, and nothing else changes. *)
Lemma swap_run w (l : loc) (xs : list E) (i j : nat) :
  heap w !! l = Some xs -> (i < length xs)%nat -> (j < length xs)%nat ->
  exists ys, ys ≡ₚ xs
    /\ swap l (Z.of_nat i) (Z.of_nat j) w =
         (Normal tt,
          World (<[l := ys]> (heap w)) (random w) (cursor w) (trace w) (locals w)).
Proof.
  intros Hl Hi Hj.
  destruct (lookup_lt_is_Some_2 xs i Hi) as [xi Hxi].
  destruct (lookup_lt_is_Some_2 xs j Hj) as [xj Hxj].
  exists (<[j := xi]> (<[i := xj]> xs)). split.
  - by apply Permutation_insert_swap.
  - unfold swap, bind, read_array, index. rewrite Hl.
    destruct (Z.ltb_spec (Z.of_nat j) 0) as [? | _]; [lia |].
    destruct (Z.ltb_spec (Z.of_nat i) 0) as [? | _]; [lia |].
    rewrite !Nat2Z.id, Hxi, Hxj. reflexivity.
Qed.

(** The loop entered at index [i] makes [i] draws and leaves a permutation
    in the cell; [i = 0] also covers the empty array. *)
Lemma shuffle_loop_run (l : loc) (i : nat) :
  forall w (xs : list E),
    heap w !! l = Some xs -> (i < length xs)%nat \/ i = 0%nat ->
    exists ys, ys ≡ₚ xs
      /\ shuffle_loop l i w =
           (Normal tt,
            World (<[l := ys]> (heap w)) (random w) (cursor w + i)
                  (trace w) (locals w)).
Proof.
  induction i as [| i IH]; intros w xs Hl Hi.
  - exists xs. split; [done |]. destruct w as [h rnd c tr lc]; simpl in *.
    unfold ret. by rewrite insert_id, Nat.add_0_r.
  - destruct Hi as [Hi | Hi]; [| discriminate Hi].
    pose proof (floor_scaled_range (random w (cursor w)) (Z.of_nat (S i) + 1))
      as Hj.
    set (j := Math_floor (random w (cursor w) * inject_Z (Z.of_nat (S i) + 1)))
      in Hj.
    set (w1 := World (heap w) (random w) (S (cursor w)) (trace w) (locals w)).
    destruct (swap_run w1 l xs (S i) (Z.to_nat j)) as (ys & Hperm & Hswap);
      [done | done | lia |].
    rewrite Z2Nat.id in Hswap by lia.
    set (w2 := World (<[l := ys]> (heap w1)) (random w1) (cursor w1)
                     (trace w1) (locals w1)) in Hswap.
    destruct (IH w2 ys) as (zs & Hperm' & Hloop).
    { apply lookup_insert_eq. }
    { left. apply Permutation_length in Hperm. lia. }
    exists zs. split; [by etrans |].
    change (shuffle_loop l (S i) w) with
      (bind (swap l (Z.of_nat (S i)) j) (fun _ => shuffle_loop l i) w1).
    unfold bind at 1. rewrite Hswap, Hloop. simpl.
    rewrite insert_insert_eq. do 2 f_equal. lia.
Qed.

(** [shuffleArray] as a whole: a fresh array holding a permutation. *)
Lemma shuffleArray_run w (array : loc) (xs : list E) :
  heap w !! array = Some xs ->
  exists ys, ys ≡ₚ xs
    /\ shuffleArray array w =
         (Normal (fresh (dom (heap w))),
          World (<[fresh (dom (heap w)) := ys]> (heap w)) (random w)
                (cursor w + (length xs - 1)) (trace w) (locals w)).
Proof.
  intros Hl.
  set (l := fresh (dom (heap w))).
  set (w1 := World (<[l := xs]> (heap w)) (random w) (cursor w) (trace w)
                   (locals w)).
  destruct (shuffle_loop_run l (length xs - 1) w1 xs) as (ys & Hperm & Hloop).
  { apply lookup_insert_eq. }
  { destruct xs; simpl; [by right | left; lia]. }
  exists ys. split; [done |].
  unfold shuffleArray, bind, read_array, alloc_array. rewrite Hl.
  fold l. fold w1. rewrite Hloop. simpl.
  by rewrite insert_insert_eq.
Qed.

Lemma fresh_loc_unused w : heap w !! fresh (dom (heap w)) = None.
Proof. apply not_elem_of_dom, is_fresh. Qed.

(** C7: [shuffleArray(xs)] returns a permutation of [xs] of the same length,
    in a new array; the input array still holds [xs], and no other array
    that existed before the call is touched. *)
Theorem shuffleArray_permutes_a_copy w (array : loc) (xs : list E) :
  heap w !! array = Some xs ->
  exists (shuffled : loc) (ys : list E) w',
    shuffleArray array w = (Normal shuffled, w')
    /\ heap w' !! shuffled = Some ys
    /\ ys ≡ₚ xs /\ length ys = length xs
    /\ heap w !! shuffled = None /\ shuffled <> array
    /\ heap w' !! array = Some xs
    /\ (forall l, l <> shuffled -> heap w' !! l = heap w !! l).
Proof.
  intros Hl.
  destruct (shuffleArray_run w array xs Hl) as (ys & Hperm & Hrun).
  pose proof (fresh_loc_unused w) as Hfresh.
  assert (Hne : fresh (dom (heap w)) <> array) by (intros Heq; congruence).
  eexists _, ys, _. split; [exact Hrun |]. simpl.
  split; [apply lookup_insert_eq |].
  split; [done |].
  split; [by apply Permutation_length |].
  split; [done |]. split; [done |].
  split; [by rewrite lookup_insert_ne |].
  intros l Hl'. by rewrite lookup_insert_ne.
Qed.

End Facts.

(** C4, refuted as stated: on the empty array [randomChoice] does not fail
    with any error, it returns [undefined]. *)
Lemma randomChoice_empty_does_not_throw :
  ~ exists e w', randomChoice ([] : list string) Examples.empty_world
                 = (Throw e, w').
Proof. intros (e & w' & H). vm_compute in H. discriminate H. Qed.


(** Witness of [randomInt_randomDelay_in_range] at [min = 5], [max = 9]. *)
Lemma randomInt_randomDelay_in_range_witness :
  5 <= 9
  /\ ((exists v w', randomInt 5 9 Examples.empty_world = (Normal v, w')
         /\ 5 <= v <= 9 /\ (5 = 9 -> v = 5))
      /\ (exists d w', randomDelay 5 9 Examples.empty_world = (Normal tt, w')
            /\ trace w' = trace Examples.empty_world ++ [Wait d]
            /\ 5 <= d <= 9 /\ (5 = 9 -> d = 5))).
Proof.
  split; [lia |].
  apply (randomInt_randomDelay_in_range Examples.empty_world 5 9); lia.
Defined.

(** Witness of [shuffleArray_permutes_a_copy] on the array [a; b; c]. *)
Lemma shuffleArray_permutes_a_copy_witness :
  heap (Examples.world_of Examples.mixed) !! 1%positive
    = Some Examples.three_comments
  /\ exists (shuffled : loc) (ys : list string) w',
      shuffleArray 1%positive (Examples.world_of Examples.mixed)
      = (Normal shuffled, w')
      /\ heap w' !! shuffled = Some ys
      /\ ys ≡ₚ Examples.three_comments
      /\ length ys = length Examples.three_comments
      /\ heap (Examples.world_of Examples.mixed) !! shuffled = None
      /\ shuffled <> 1%positive
      /\ heap w' !! 1%positive = Some Examples.three_comments
      /\ (forall l, l <> shuffled ->
            heap w' !! l = heap (Examples.world_of Examples.mixed) !! l).
Proof.
  split; [reflexivity |].
  apply (shuffleArray_permutes_a_copy (Examples.world_of Examples.mixed)
           1%positive Examples.three_comments).
  reflexivity.
Defined.

(** The shuffle run on [a; b; c] with the draws 0.9 and 0. *)
Example shuffleArray_on_three :
  exists l w', shuffleArray 1%positive (Examples.world_of Examples.mixed)
               = (Normal l, w')
    /\ heap w' !! l = Some ["b"; "a"; "c"]%string
    /\ heap w' !! 1%positive = Some ["a"; "b"; "c"]%string.
Proof. eexists _, _. split; [vm_compute; reflexivity |]. by vm_compute. Qed.


End HumanizationFacts.

Module AccountManagerFacts.

Import AccountManager.

(** A string field is truthy exactly when it is not the empty string, and a
    field that is absent is falsy. *)
Lemma truthy_string_field (s : string) :
  truthy (Some (JString s)) = true <-> s <> ""%string.
Proof.
  simpl. rewrite negb_true_iff. split.
  - intros H ->. discriminate H.
  - intros H. by apply String.eqb_neq.
Qed.

Lemma truthy_absent : truthy None = false.
Proof. reflexivity. Qed.

Lemma validateAccount_true_iff (acc : Account) :
  (validateAccount acc).1 = true <->
  truthy (acc !! "username") = true
  /\ truthy (acc !! "sessionId") = true
  /\ truthy (acc !! "userAgent") = true.
Proof.
  unfold validateAccount, requiredFields; simpl.
  destruct (truthy (acc !! "username")); simpl; [| intuition discriminate].
  destruct (truthy (acc !! "sessionId")); simpl; [| intuition discriminate].
  destruct (truthy (acc !! "userAgent")); simpl; intuition discriminate.
Qed.

(** The array built by [filter] is the sub-list of the accounts that pass. *)
Lemma filter_valid_accounts (accs : list Account) :
  (filter_valid accs).1 = filter (fun acc => (validateAccount acc).1 = true) accs.
Proof.
  induction accs as [| acc accs IH]; [reflexivity |].
  simpl. destruct (validateAccount acc) as [ok ws] eqn:Hv.
  destruct (filter_valid accs) as [kept ws']. simpl in *. subst kept.
  destruct ok.
  - rewrite filter_cons_True; [done | by rewrite Hv].
  - rewrite filter_cons_False; [done | by rewrite Hv].
Qed.

Lemma getValidAccounts_result (m : manager) :
  (getValidAccounts m).1
  = filter (fun acc => (validateAccount acc).1 = true) (accounts m).
Proof.
  unfold getValidAccounts. rewrite <- filter_valid_accounts.
  by destruct (filter_valid (accounts m)).
Qed.

Lemma getValidAccounts_store (m : manager) :
  accounts (getValidAccounts m).2 = accounts m
  /\ configPath (getValidAccounts m).2 = configPath m.
Proof. unfold getValidAccounts. by destruct (filter_valid (accounts m)). Qed.

(** C5 as the code has it: [validateAccount] returns true exactly when the
    fields [username], [sessionId] and [userAgent] are all truthy (present
    and, for strings, non-empty); a [sessionid] cookie does not replace
    [sessionId].  Hence an account without a truthy [userAgent] is never
    among the valid accounts, and dropping an invalid account from the
    stored list does not change which accounts are returned. *)
Theorem validateAccount_requires_three_fields :
  (forall acc : Account,
     (validateAccount acc).1 = true <->
     truthy (acc !! "username") = true
     /\ truthy (acc !! "sessionId") = true
     /\ truthy (acc !! "userAgent") = true)
  /\ (forall (m : manager) (acc : Account),
        truthy (acc !! "userAgent") = false -> acc ∉ (getValidAccounts m).1)
  /\ (forall (path : string) (log : list warning) (before after : list Account)
             (acc : Account),
        (validateAccount acc).1 = false ->
        (getValidAccounts (Manager path (before ++ acc :: after) log)).1
        = (getValidAccounts (Manager path (before ++ after) log)).1).
Proof.
  split; [exact validateAccount_true_iff |]. split.
  - intros m acc Hua Hin. rewrite getValidAccounts_result in Hin.
    apply list_elem_of_filter in Hin as [Hok _].
    apply validateAccount_true_iff in Hok as (_ & _ & Hok). congruence.
  - intros path log before after acc Hbad.
    rewrite !getValidAccounts_result; simpl.
    rewrite !filter_app, filter_cons_False; [done | congruence].
Qed.

(** C5, refuted as stated: an account whose session id is only a
    [sessionid] cookie meets the rule as the specification words it, and the
    client would use that cookie, yet [validateAccount] rejects it. *)
Lemma validateAccount_ignores_session_cookie :
  validate_spec Examples.carol = true
  /\ client_sessionId Examples.carol = Some (JString "s3")
  /\ ~ ((validateAccount Examples.carol).1 = true
        <-> validate_spec Examples.carol = true).
Proof.
  split; [by vm_compute |]. split; [by vm_compute |].
  intros [_ H]. assert (Hv : validate_spec Examples.carol = true) by by vm_compute.
  apply H in Hv. vm_compute in Hv. discriminate Hv.
Qed.

(** The catalogue [alice; bob; carol; alice]: both copies of [alice] are
    kept, in place; [bob] and [carol] are dropped with one warning each. *)
Example getValidAccounts_on_registry :
  (getValidAccounts Examples.registry).1 = [Examples.alice; Examples.alice]
  /\ console (getValidAccounts Examples.registry).2
     = [Warning (JString "bob") "userAgent"; Warning (JString "carol") "sessionId"].
Proof. split; by vm_compute. Qed.

(** C10: [getValidAccounts] returns exactly the stored accounts that pass
    [validateAccount], as a sub-list in the stored order, and leaves the
    stored list as it was. *)
Theorem getValidAccounts_ordered_sublist (m : manager) :
  (getValidAccounts m).1
    = filter (fun acc => (validateAccount acc).1 = true) (accounts m)
  /\ (getValidAccounts m).1 `sublist_of` accounts m
  /\ (forall acc : Account,
        acc ∈ (getValidAccounts m).1
        <-> acc ∈ accounts m /\ (validateAccount acc).1 = true)
  /\ accounts (getValidAccounts m).2 = accounts m.
Proof.
  rewrite getValidAccounts_result.
  split; [done |]. split; [apply sublist_filter |]. split.
  - intros acc. rewrite list_elem_of_filter. tauto.
  - apply getValidAccounts_store.
Qed.

End AccountManagerFacts.

Module InteractionFacts.

Import JSFacts Humanization HumanizationFacts InteractionModule.

Section Facts.
Context {Response : Type}.
Implicit Types (w : world string (list (result Response))).
Implicit Types (client c : TikTokClient Response).
Implicit Types (clients rest : list (TikTokClient Response)).

(** One session of [massComment]: the call, the entry, and the wait that
    follows only a successful session that is not the last. *)
Lemma comment_session_run (vid : string) (config : CommentingConfig)
    (l : loc) (texts : list string) (n i : nat) c w :
  heap w !! l = Some texts ->
  exists gap k,
    comment_session vid config l n i c w =
      (Normal tt,
       World (heap w) (random w) (cursor w + k)
             (trace w ++ PostComment (username c) vid (cyclic texts i) :: gap)
             (locals w ++ [entry_of c (Some (cyclic texts i))
                                    (comment_work vid texts i c)]))
    /\ gap_between (raises (comment_work vid texts i c)) (is_last n i)
                   (or_default (delayBetweenCommentsMin config) 5000)
                   (or_default (delayBetweenCommentsMax config) 15000) gap.
Proof.
  intros Hl.
  unfold comment_session, try_catch, bind, read_array. rewrite Hl.
  unfold postComment, try_catch, bind, emit, await, comment_work, is_last; simpl.
  destruct (client_postComment c vid (cyclic texts i)) as [r | e]; simpl.
  - destruct (Z.of_nat i <? Z.of_nat n - 1); simpl.
    + eexists [Wait _], 1%nat. split.
      * rewrite Nat.add_1_r, <- app_assoc. reflexivity.
      * eexists. split; [reflexivity |]. apply pick_in_range.
    + exists [], 0%nat. split; [| reflexivity].
      by rewrite Nat.add_0_r.
  - exists [], 0%nat. split; [| reflexivity].
    by rewrite Nat.add_0_r.
Qed.

(** One session of [massLikeComment]. *)
Lemma like_session_run (cid : string) (config : LikingConfig) (n i : nat) c w :
  exists gap k,
    like_session cid config n i c w =
      (Normal tt,
       World (heap w) (random w) (cursor w + k)
             (trace w ++ LikeComment (username c) cid 1 :: gap)
             (locals w ++ [entry_of c None (like_work cid c)]))
    /\ gap_between (raises (like_work cid c)) (is_last n i)
                   (or_default (delayBetweenLikesMin config) 3000)
                   (or_default (delayBetweenLikesMax config) 10000) gap.
Proof.
  unfold like_session, likeComment, try_catch, bind, emit, await, like_work,
    is_last; simpl.
  destruct (client_likeComment c cid 1) as [r | e]; simpl.
  - destruct (Z.of_nat i <? Z.of_nat n - 1); simpl.
    + eexists [Wait _], 1%nat. split.
      * rewrite Nat.add_1_r, <- app_assoc. reflexivity.
      * eexists. split; [reflexivity |]. apply pick_in_range.
    + exists [], 0%nat. split; [| reflexivity].
      by rewrite Nat.add_0_r.
  - exists [], 0%nat. split; [| reflexivity].
    by rewrite Nat.add_0_r.
Qed.

(** The whole loop of [massComment] from index [i]: the heap and the random
    source are not touched, one entry is appended per client in order, and
    the trace grows by one chunk per client. *)
Lemma comment_loop_run (vid : string) (config : CommentingConfig)
    (l : loc) (texts : list string) (n : nat) :
  forall rest i w,
    heap w !! l = Some texts ->
    exists chunks k,
      comment_loop vid config l n i rest w =
        (Normal tt,
         World (heap w) (random w) (cursor w + k) (trace w ++ concat chunks)
               (locals w ++
                imap (fun j c => entry_of c (Some (cyclic texts (i + j)))
                                          (comment_work vid texts (i + j) c))
                     rest))
      /\ length chunks = length rest
      /\ forall j c, rest !! j = Some c ->
           exists gap,
             chunks !! j
             = Some (PostComment (username c) vid (cyclic texts (i + j)) :: gap)
             /\ gap_between (raises (comment_work vid texts (i + j) c))
                            (is_last n (i + j))
                            (or_default (delayBetweenCommentsMin config) 5000)
                            (or_default (delayBetweenCommentsMax config) 15000)
                            gap.
Proof.
  induction rest as [| c rest IH]; intros i w Hl.
  - exists [], 0%nat. split; [| split; [done | intros j c Hj; discriminate Hj]].
    simpl. unfold ret. destruct w; simpl. by rewrite Nat.add_0_r, !app_nil_r.
  - destruct (comment_session_run vid config l texts n i c w Hl)
      as (gap & k & Hrun & Hgap).
    match type of Hrun with _ = (_, ?w1) => set (w1' := w1) in Hrun end.
    destruct (IH (S i) w1' Hl) as (chunks & k' & Hloop & Hlen & Hchunks).
    exists ((PostComment (username c) vid (cyclic texts i) :: gap) :: chunks),
      (k + k')%nat.
    split; [| split].
    + simpl comment_loop. unfold bind. rewrite Hrun, Hloop. simpl.
      rewrite Nat.add_0_r, <- !app_assoc, Nat.add_assoc. simpl.
      do 4 f_equal. apply imap_ext. intros j x _. simpl.
      by rewrite Nat.add_succ_r.
    + simpl. by rewrite Hlen.
    + intros [| j] c' Hj; simpl in Hj.
      * injection Hj as <-. exists gap. by rewrite Nat.add_0_r.
      * destruct (Hchunks j c' Hj) as (gap' & Hc & Hg).
        exists gap'. by rewrite Nat.add_succ_r.
Qed.

(** The whole loop of [massLikeComment] from index [i]. *)
Lemma like_loop_run (cid : string) (config : LikingConfig) (n : nat) :
  forall rest i w,
    exists chunks k,
      like_loop cid config n i rest w =
        (Normal tt,
         World (heap w) (random w) (cursor w + k) (trace w ++ concat chunks)
               (locals w ++ ((fun c => entry_of c None (like_work cid c)) <$> rest)))
      /\ length chunks = length rest
      /\ forall j c, rest !! j = Some c ->
           exists gap,
             chunks !! j = Some (LikeComment (username c) cid 1 :: gap)
             /\ gap_between (raises (like_work cid c)) (is_last n (i + j))
                            (or_default (delayBetweenLikesMin config) 3000)
                            (or_default (delayBetweenLikesMax config) 10000)
                            gap.
Proof.
  induction rest as [| c rest IH]; intros i w.
  - exists [], 0%nat. split; [| split; [done | intros j c Hj; discriminate Hj]].
    simpl. unfold ret. destruct w; simpl. by rewrite Nat.add_0_r, !app_nil_r.
  - destruct (like_session_run cid config n i c w) as (gap & k & Hrun & Hgap).
    match type of Hrun with _ = (_, ?w1) => set (w1' := w1) in Hrun end.
    destruct (IH (S i) w1') as (chunks & k' & Hloop & Hlen & Hchunks).
    exists ((LikeComment (username c) cid 1 :: gap) :: chunks), (k + k')%nat.
    split; [| split].
    + simpl like_loop. unfold bind. rewrite Hrun, Hloop. simpl.
      by rewrite <- !app_assoc, Nat.add_assoc.
    + simpl. by rewrite Hlen.
    + intros [| j] c' Hj; simpl in Hj.
      * injection Hj as <-. exists gap. by rewrite Nat.add_0_r.
      * destruct (Hchunks j c' Hj) as (gap' & Hc & Hg).
        exists gap'. by rewrite Nat.add_succ_r.
Qed.

(** A resolved target is never the empty string, so the test [!videoId]
    fails on it. *)
Lemma match_video_nonempty (url d : string) :
  match_video url = Some d -> d <> ""%string.
Proof.
  induction url as [| a rest IH]; [discriminate |].
  cbn [match_video].
  destruct (after_prefix "/video/" (String a rest)) as [tail |]; [| exact IH].
  destruct (digits tail) as [| b ds]; [exact IH |].
  by intros [= <-].
Qed.

Lemma target_video_nonempty (config : CommentingConfig) (vid : string) :
  target_video config = Some vid -> vid <> ""%string.
Proof.
  unfold target_video.
  destruct (videoId config) as [s |]; simpl.
  - destruct (String.eqb_spec s "") as [-> | Hne]; simpl.
    + destruct (videoUrl config); simpl; [apply match_video_nonempty | discriminate].
    + by intros [= <-].
  - destruct (videoUrl config); simpl; [apply match_video_nonempty | discriminate].
Qed.

(** [massComment] on a configuration whose target resolves to [vid] and
    whose comment array holds [configured]: the array [l] the loop reads is
    new and holds a permutation [texts] of the configured comments (the
    very list when [randomizeOrder] is off); every array that existed
    before is unchanged. *)
Lemma massComment_run clients (config : CommentingConfig) w
    (vid : string) (configured : list string) :
  target_video config = Some vid ->
  heap w !! comments config = Some configured ->
  exists (l : loc) (texts : list string) (chunks : list (list event)) w',
    massComment clients config w =
      (Normal (imap (fun j c => entry_of c (Some (cyclic texts j))
                                         (comment_work vid texts j c))
                    clients), w')
    /\ heap w' !! l = Some texts /\ heap w !! l = None
    /\ texts ≡ₚ configured
    /\ (randomizeOrder config = false -> texts = configured)
    /\ (forall l0 xs, heap w !! l0 = Some xs -> heap w' !! l0 = Some xs)
    /\ trace w' = trace w ++ concat chunks
    /\ length chunks = length clients
    /\ forall j c, clients !! j = Some c ->
         exists gap,
           chunks !! j
           = Some (PostComment (username c) vid (cyclic texts j) :: gap)
           /\ gap_between (raises (comment_work vid texts j c))
                          (is_last (length clients) j)
                          (or_default (delayBetweenCommentsMin config) 5000)
                          (or_default (delayBetweenCommentsMax config) 15000)
                          gap.
Proof.
  intros Htarget Hconf.
  pose proof (target_video_nonempty config vid Htarget) as Hvid.
  apply String.eqb_neq in Hvid.
  unfold massComment. rewrite Htarget, Hvid.
  unfold bind at 1. unfold read_array at 1. rewrite Hconf.
  unfold bind at 1. unfold alloc_array at 1.
  set (l1 := fresh (dom (heap w))).
  assert (Hl1 : heap w !! l1 = None) by apply fresh_loc_unused.
  set (w1 := World (<[l1 := configured]> (heap w)) (random w) (cursor w)
                   (trace w) (locals w)).
  destruct (randomizeOrder config) eqn:Hshuffle.
  - destruct (shuffleArray_run w1 l1 configured) as (texts & Hperm & Hsh).
    { apply lookup_insert_eq. }
    set (l2 := fresh (dom (heap w1))) in Hsh.
    assert (Hl2 : heap w1 !! l2 = None) by apply fresh_loc_unused.
    match type of Hsh with _ = (_, ?w2) => set (w2' := w2) in Hsh end.
    set (w3 := World (heap w2') (random w2') (cursor w2') (trace w2') []
               : world string (list (result Response))).
    destruct (comment_loop_run vid config l2 texts (length clients) clients 0 w3)
      as (chunks & k & Hloop & Hlen & Hchunks).
    { apply lookup_insert_eq. }
    exists l2, texts, chunks. eexists. split; [| split; [| split; [| split;
      [| split; [| split; [| split; [| split]]]]]]].
    + unfold bind. rewrite Hsh. unfold set_locals. fold w3. rewrite Hloop.
      reflexivity.
    + simpl. apply lookup_insert_eq.
    + simpl in Hl2. apply lookup_insert_None in Hl2. tauto.
    + done.
    + discriminate.
    + intros l0 xs Hl0. simpl.
      rewrite lookup_insert_ne.
      * rewrite lookup_insert_ne; [done | congruence].
      * intros <-. simpl in Hl2. rewrite lookup_insert_ne in Hl2; congruence.
    + reflexivity.
    + done.
    + done.
  - set (w3 := World (heap w1) (random w1) (cursor w1) (trace w1) []
               : world string (list (result Response))).
    destruct (comment_loop_run vid config l1 configured (length clients)
                clients 0 w3)
      as (chunks & k & Hloop & Hlen & Hchunks).
    { apply lookup_insert_eq. }
    exists l1, configured, chunks. eexists. split; [| split; [| split; [| split;
      [| split; [| split; [| split; [| split]]]]]]].
    + unfold bind, ret, set_locals. fold w1. fold w3. rewrite Hloop.
      reflexivity.
    + simpl. apply lookup_insert_eq.
    + done.
    + done.
    + done.
    + intros l0 xs Hl0. simpl. rewrite lookup_insert_ne; [done | congruence].
    + reflexivity.
    + done.
    + done.
Qed.

(** [massLikeComment] on a configuration with a comment id [cid]. *)
Lemma massLikeComment_run clients (config : LikingConfig) w (cid : string) :
  commentId config = Some cid -> cid <> ""%string ->
  exists (chunks : list (list event)) w',
    massLikeComment clients config w =
      (Normal ((fun c => entry_of c None (like_work cid c)) <$> clients), w')
    /\ heap w' = heap w
    /\ trace w' = trace w ++ concat chunks
    /\ length chunks = length clients
    /\ forall j c, clients !! j = Some c ->
         exists gap,
           chunks !! j = Some (LikeComment (username c) cid 1 :: gap)
           /\ gap_between (raises (like_work cid c))
                          (is_last (length clients) j)
                          (or_default (delayBetweenLikesMin config) 3000)
                          (or_default (delayBetweenLikesMax config) 10000)
                          gap.
Proof.
  intros Hcid Hne.
  unfold massLikeComment. rewrite Hcid.
  apply String.eqb_neq in Hne. rewrite Hne.
  set (w3 := World (heap w) (random w) (cursor w) (trace w) []
             : world string (list (result Response))).
  destruct (like_loop_run cid config (length clients) clients 0 w3)
    as (chunks & k & Hloop & Hlen & Hchunks).
  exists chunks. eexists. split; [| split; [| split; [| split]]].
  - unfold bind, set_locals. fold w3. rewrite Hloop. reflexivity.
  - reflexivity.
  - reflexivity.
  - done.
  - done.
Qed.

(** Facts about a report built entry by entry from the outcomes [work]. *)
Lemma report_accounts (said : nat -> option (option string))
    (work : nat -> TikTokClient Response -> completion Response) clients :
  account <$> imap (fun j c => entry_of c (said j) (work j c)) clients
  = username <$> clients.
Proof.
  revert said work.
  induction clients as [| c clients IH]; intros said work; [done |].
  simpl. f_equal.
  - by destruct (work 0%nat c).
  - apply (IH (said ∘ S) (work ∘ S)).
Qed.

Lemma report_counts (said : nat -> option (option string))
    (work : nat -> TikTokClient Response -> completion Response) clients :
  (length (filter (fun r => success r = true)
                  (imap (fun j c => entry_of c (said j) (work j c)) clients))
   + length (filter (fun o => raises o = true) (imap work clients))
   = length clients)%nat.
Proof.
  revert said work.
  induction clients as [| c clients IH]; intros said work; [done |].
  specialize (IH (said ∘ S) (work ∘ S)). unfold compose in IH.
  rewrite !imap_cons. unfold compose.
  destruct (work 0%nat c) as [r | e].
  - rewrite filter_cons_True by done.
    rewrite (filter_cons_False (fun o => raises o = true)) by done.
    simpl length. lia.
  - rewrite filter_cons_False by done.
    rewrite (filter_cons_True (fun o => raises o = true)) by done.
    simpl length. lia.
Qed.

Lemma cyclic_lookup (texts : list string) (i : nat) :
  texts <> [] ->
  exists text, cyclic texts i = Some text
               /\ texts !! (i mod length texts)%nat = Some text.
Proof.
  intros Hne. unfold cyclic.
  destruct (lookup_lt_is_Some_2 texts (i mod length texts)) as [text Ht].
  { apply Nat.mod_upper_bound. by destruct texts. }
  exists text. split; [| done]. by destruct texts.
Qed.

(** C1: when the target resolves, [massComment] and [massLikeComment]
    return one entry per session, in the order of the sessions; the entries
    with [success = true] and the sessions whose unit of work raised add up
    to all sessions; and the entry of a session that raised carries the
    message of its error. *)
Theorem mass_operations_report_every_session clients
    (cconfig : CommentingConfig) (lconfig : LikingConfig) w
    (vid cid : string) (configured : list string) :
  target_video cconfig = Some vid ->
  heap w !! comments cconfig = Some configured ->
  commentId lconfig = Some cid -> cid <> ""%string ->
  (exists results texts w',
     massComment clients cconfig w = (Normal results, w')
     /\ texts ≡ₚ configured
     /\ length results = length clients
     /\ account <$> results = username <$> clients
     /\ (length (filter (fun r => success r = true) results)
         + length (filter (fun o => raises o = true)
                          (imap (comment_work vid texts) clients))
         = length clients)%nat
     /\ forall j c e,
          clients !! j = Some c -> comment_work vid texts j c = Throw e ->
          results !! j
          = Some (Result (username c) false None None (Some (message e))))
  /\ (exists results w',
        massLikeComment clients lconfig w = (Normal results, w')
        /\ length results = length clients
        /\ account <$> results = username <$> clients
        /\ (length (filter (fun r => success r = true) results)
            + length (filter (fun o => raises o = true)
                             (like_work cid <$> clients))
            = length clients)%nat
        /\ forall j c e,
             clients !! j = Some c -> like_work cid c = Throw e ->
             results !! j
             = Some (Result (username c) false None None (Some (message e)))).
Proof.
  intros Htarget Hconf Hcid Hne. split.
  - destruct (massComment_run clients cconfig w vid configured Htarget Hconf)
      as (l & texts & chunks & w' & Hrun & _ & _ & Hperm & _).
    eexists _, texts, w'. split; [exact Hrun |]. split; [done |].
    split; [by rewrite length_imap |].
    split; [apply report_accounts |].
    split; [apply report_counts |].
    intros j c e Hj Hwork.
    rewrite list_lookup_imap, Hj. simpl. by rewrite Hwork.
  - destruct (massLikeComment_run clients lconfig w cid Hcid Hne)
      as (chunks & w' & Hrun & _).
    eexists _, w'. split; [exact Hrun |].
    split; [by rewrite length_fmap |].
    rewrite <- (imap_const (fun c => entry_of c None (like_work cid c))).
    rewrite <- (imap_const (like_work cid)). unfold const.
    split; [apply (report_accounts (fun _ => None) (fun _ => like_work cid)) |].
    split; [apply (report_counts (fun _ => None) (fun _ => like_work cid)) |].
    intros j c e Hj Hwork.
    rewrite list_lookup_imap, Hj. simpl. by rewrite Hwork.
Qed.

(** C2 as the code has it: in [massComment] and [massLikeComment] the trace
    is one chunk per session, the call of the session followed by a gap;
    the gap is a single wait when the session succeeded and is not the
    last, and is empty when the session raised or is the last. *)
Theorem delay_follows_successful_sessions_only clients
    (cconfig : CommentingConfig) (lconfig : LikingConfig) w
    (vid cid : string) (configured : list string) :
  target_video cconfig = Some vid ->
  heap w !! comments cconfig = Some configured ->
  commentId lconfig = Some cid -> cid <> ""%string ->
  (exists results texts chunks w',
     massComment clients cconfig w = (Normal results, w')
     /\ trace w' = trace w ++ concat chunks
     /\ length chunks = length clients
     /\ forall j c, clients !! j = Some c ->
          exists gap,
            chunks !! j
            = Some (PostComment (username c) vid (cyclic texts j) :: gap)
            /\ gap_between (raises (comment_work vid texts j c))
                  (is_last (length clients) j)
                  (or_default (delayBetweenCommentsMin cconfig) 5000)
                  (or_default (delayBetweenCommentsMax cconfig) 15000) gap)
  /\ (exists results chunks w',
        massLikeComment clients lconfig w = (Normal results, w')
        /\ trace w' = trace w ++ concat chunks
        /\ length chunks = length clients
        /\ forall j c, clients !! j = Some c ->
             exists gap,
               chunks !! j = Some (LikeComment (username c) cid 1 :: gap)
               /\ gap_between (raises (like_work cid c))
                     (is_last (length clients) j)
                     (or_default (delayBetweenLikesMin lconfig) 3000)
                     (or_default (delayBetweenLikesMax lconfig) 10000) gap).
Proof.
  intros Htarget Hconf Hcid Hne. split.
  - destruct (massComment_run clients cconfig w vid configured Htarget Hconf)
      as (l & texts & chunks & w' & Hrun & _ & _ & _ & _ & _ & Htr & Hlen & Hch).
    by eexists _, texts, chunks, w'.
  - destruct (massLikeComment_run clients lconfig w cid Hcid Hne)
      as (chunks & w' & Hrun & _ & Htr & Hlen & Hch).
    by eexists _, chunks, w'.
Qed.

(** C8: with at least one configured comment, the session at index [i] of
    [massComment] posts the comment at index [i mod m] of the list in use,
    [m] being the number of comments; that list is a permutation of the
    configured one, and the configured one itself when [randomizeOrder] is
    off.  A successful entry records the same comment. *)
Theorem massComment_assigns_comments_cyclically clients
    (config : CommentingConfig) w (vid : string) (configured : list string) :
  target_video config = Some vid ->
  heap w !! comments config = Some configured ->
  configured <> [] ->
  exists (l : loc) (texts : list string) results chunks w',
    massComment clients config w = (Normal results, w')
    /\ heap w' !! l = Some texts
    /\ texts ≡ₚ configured
    /\ (randomizeOrder config = false -> texts = configured)
    /\ trace w' = trace w ++ concat chunks
    /\ forall i c, clients !! i = Some c ->
         exists text gap,
           texts !! (i mod length configured)%nat = Some text
           /\ chunks !! i
              = Some (PostComment (username c) vid (Some text) :: gap)
           /\ forall r, client_postComment c vid (Some text) = Normal r ->
                results !! i
                = Some (Result (username c) true (Some (Some text)) (Some r)
                               None).
Proof.
  intros Htarget Hconf Hne.
  destruct (massComment_run clients config w vid configured Htarget Hconf)
    as (l & texts & chunks & w' & Hrun & Hl & _ & Hperm & Hid & _ & Htr & _ & Hch).
  eexists l, texts, _, chunks, w'. split; [exact Hrun |].
  split; [done |]. split; [done |]. split; [done |]. split; [done |].
  intros i c Hi.
  assert (Hne' : texts <> []).
  { intros ->. apply Permutation_nil_l in Hperm. by subst. }
  destruct (cyclic_lookup texts i Hne') as (text & Hcyc & Hlook).
  destruct (Hch i c Hi) as (gap & Hchunk & _).
  exists text, gap.
  split; [by rewrite <- (Permutation_length Hperm) |].
  split; [by rewrite <- Hcyc |].
  intros r Hr. rewrite list_lookup_imap, Hi. simpl.
  unfold comment_work. by rewrite Hcyc, Hr.
Qed.

(** C9: whatever the outcome of [massComment], the array of configured
    comments and every other array that existed before the call hold what
    they held before, also when [randomizeOrder] is on; [massLikeComment]
    leaves the whole heap as it was. *)
Theorem mass_operations_leave_config_untouched clients
    (cconfig : CommentingConfig) (lconfig : LikingConfig) w :
  heap (massComment clients cconfig w).2 !! comments cconfig
    = heap w !! comments cconfig
  /\ (forall l xs, heap w !! l = Some xs ->
                   heap (massComment clients cconfig w).2 !! l = Some xs)
  /\ heap (massLikeComment clients lconfig w).2 = heap w.
Proof.
  assert (Hframe : forall l xs, heap w !! l = Some xs ->
            heap (massComment clients cconfig w).2 !! l = Some xs).
  { intros l0 xs Hl0.
    destruct (target_video cconfig) as [vid |] eqn:Htarget.
    - destruct (heap w !! comments cconfig) as [configured |] eqn:Hconf.
      + destruct (massComment_run clients cconfig w vid configured Htarget Hconf)
          as (l & texts & chunks & w' & Hrun & _ & _ & _ & _ & Hkeep & _).
        rewrite Hrun. by apply Hkeep.
      + unfold massComment. rewrite Htarget.
        destruct (String.eqb vid ""); [done |].
        unfold bind at 1. unfold read_array at 1. by rewrite Hconf.
    - unfold massComment. by rewrite Htarget. }
  split; [| split; [exact Hframe |]].
  - destruct (heap w !! comments cconfig) as [configured |] eqn:Hconf.
    + by apply Hframe.
    + unfold massComment. destruct (target_video cconfig) as [vid |]; [| done].
      destruct (String.eqb vid ""); [done |].
      unfold bind at 1. unfold read_array at 1. by rewrite Hconf.
  - destruct (commentId lconfig) as [cid |] eqn:Hcid.
    + destruct (String.eqb_spec cid "") as [-> | Hne].
      * unfold massLikeComment. by rewrite Hcid.
      * destruct (massLikeComment_run clients lconfig w cid Hcid Hne)
          as (chunks & w' & Hrun & Hheap & _).
        by rewrite Hrun.
    + unfold massLikeComment. by rewrite Hcid.
Qed.

End Facts.

Import Examples.

(** The model run on three sessions with the shuffle on: the comments in
    use are [b; a; c], and no wait follows the session that failed. *)
Example massComment_on_three_sessions :
  (massComment sessions (commenting true) (world_of mixed)).1
  = Normal [Result "u1" true (Some (Some "b")) (Some "posted") None;
            Result "u2" false None None (Some "rate limited");
            Result "u3" true (Some (Some "c")) (Some "posted") None]
  /\ trace (massComment sessions (commenting true) (world_of mixed)).2
     = [PostComment "u1" "123456" (Some "b"); Wait 7504;
        PostComment "u2" "123456" (Some "a");
        PostComment "u3" "123456" (Some "c")].
Proof. split; vm_compute; reflexivity. Qed.

(** C2, refuted as stated: the first of two sessions raises, it is not the
    last one, and both mass operations go on to the second session without
    any wait in between. *)
Lemma no_delay_after_failed_session :
  (massComment [bad "u1"; ok "u2"] (commenting false) (world_of halves)).1
  = Normal [Result "u1" false None None (Some "rate limited");
            Result "u2" true (Some (Some "b")) (Some "posted") None]
  /\ trace (massComment [bad "u1"; ok "u2"] (commenting false) (world_of halves)).2
     = [PostComment "u1" "123456" (Some "a"); PostComment "u2" "123456" (Some "b")]
  /\ trace (massLikeComment [bad "u1"; ok "u2"] liking (world_of halves)).2
     = [LikeComment "u1" "c9" 1; LikeComment "u2" "c9" 1]
  /\ ~ (exists ms,
          Wait ms ∈ trace (massComment [bad "u1"; ok "u2"] (commenting false)
                                       (world_of halves)).2
          \/ Wait ms ∈ trace (massLikeComment [bad "u1"; ok "u2"] liking
                                              (world_of halves)).2).
Proof.
  split; [by vm_compute |]. split; [by vm_compute |]. split; [by vm_compute |].
  intros [ms [H | H]]; vm_compute in H;
    repeat (apply elem_of_cons in H as [H | H]; [discriminate H |]);
    by apply elem_of_nil in H.
Qed.

(** The success path, for comparison: the same two sessions with the first
    one succeeding wait once between the two calls. *)
Example delay_after_successful_session :
  trace (massComment [ok "u1"; ok "u2"] (commenting false) (world_of halves)).2
  = [PostComment "u1" "123456" (Some "a"); Wait 7504;
     PostComment "u2" "123456" (Some "b")].
Proof. by vm_compute. Qed.

(** The identifier is read from the first [/video/<digits>] of the link; a
    link without one gives [null], as does a missing link. *)
Example extractVideoId_examples :
  extractVideoId (Some "https://x.tiktok.com/@u/video/123456"%string)
  = Some "123456"%string
  /\ extractVideoId (Some "https://x.tiktok.com/@u/video/"%string) = None
  /\ extractVideoId (Some "https://x.tiktok.com/@u/video/x/video/12a"%string)
     = Some "12"%string
  /\ extractVideoId None = None.
Proof. repeat split; by vm_compute. Qed.

(** Witness of [mass_operations_report_every_session]. *)
Lemma mass_operations_report_every_session_witness :
  target_video (commenting true) = Some "123456"%string
  /\ heap (world_of mixed) !! comments (commenting true) = Some three_comments
  /\ commentId liking = Some "c9"%string
  /\ "c9"%string <> ""%string
  /\ (exists results texts w',
        massComment sessions (commenting true) (world_of mixed)
        = (Normal results, w')
        /\ texts ≡ₚ three_comments
        /\ length results = length sessions
        /\ account <$> results = username <$> sessions
        /\ (length (filter (fun r => success r = true) results)
            + length (filter (fun o => raises o = true)
                             (imap (comment_work "123456" texts) sessions))
            = length sessions)%nat
        /\ forall j c e,
             sessions !! j = Some c ->
             comment_work "123456" texts j c = Throw e ->
             results !! j
             = Some (Result (username c) false None None (Some (message e))))
  /\ (exists results w',
        massLikeComment sessions liking (world_of mixed) = (Normal results, w')
        /\ length results = length sessions
        /\ account <$> results = username <$> sessions
        /\ (length (filter (fun r => success r = true) results)
            + length (filter (fun o => raises o = true)
                             (like_work "c9" <$> sessions))
            = length sessions)%nat
        /\ forall j c e,
             sessions !! j = Some c -> like_work "c9" c = Throw e ->
             results !! j
             = Some (Result (username c) false None None (Some (message e)))).
Proof.
  split; [reflexivity |]. split; [reflexivity |]. split; [reflexivity |].
  split; [discriminate |].
  apply (mass_operations_report_every_session sessions (commenting true) liking
           (world_of mixed) "123456" "c9" three_comments);
    [reflexivity | reflexivity | reflexivity | discriminate].
Defined.

(** Witness of [delay_follows_successful_sessions_only]. *)
Lemma delay_follows_successful_sessions_only_witness :
  target_video (commenting true) = Some "123456"%string
  /\ heap (world_of mixed) !! comments (commenting true) = Some three_comments
  /\ commentId liking = Some "c9"%string
  /\ "c9"%string <> ""%string
  /\ (exists results texts chunks w',
        massComment sessions (commenting true) (world_of mixed)
        = (Normal results, w')
        /\ trace w' = trace (world_of mixed) ++ concat chunks
        /\ length chunks = length sessions
        /\ forall j c, sessions !! j = Some c ->
             exists gap,
               chunks !! j
               = Some (PostComment (username c) "123456" (cyclic texts j) :: gap)
               /\ gap_between (raises (comment_work "123456" texts j c))
                     (is_last (length sessions) j)
                     (or_default (delayBetweenCommentsMin (commenting true)) 5000)
                     (or_default (delayBetweenCommentsMax (commenting true)) 15000)
                     gap)
  /\ (exists results chunks w',
        massLikeComment sessions liking (world_of mixed) = (Normal results, w')
        /\ trace w' = trace (world_of mixed) ++ concat chunks
        /\ length chunks = length sessions
        /\ forall j c, sessions !! j = Some c ->
             exists gap,
               chunks !! j = Some (LikeComment (username c) "c9" 1 :: gap)
               /\ gap_between (raises (like_work "c9" c))
                     (is_last (length sessions) j)
                     (or_default (delayBetweenLikesMin liking) 3000)
                     (or_default (delayBetweenLikesMax liking) 10000) gap).
Proof.
  split; [reflexivity |]. split; [reflexivity |]. split; [reflexivity |].
  split; [discriminate |].
  apply (delay_follows_successful_sessions_only sessions (commenting true)
           liking (world_of mixed) "123456" "c9" three_comments);
    [reflexivity | reflexivity | reflexivity | discriminate].
Defined.

(** Witness of [massComment_assigns_comments_cyclically]. *)
Lemma massComment_assigns_comments_cyclically_witness :
  target_video (commenting true) = Some "123456"%string
  /\ heap (world_of mixed) !! comments (commenting true) = Some three_comments
  /\ three_comments <> []
  /\ exists (l : loc) (texts : list string) results chunks w',
      massComment (sessions ++ sessions) (commenting true) (world_of mixed)
      = (Normal results, w')
      /\ heap w' !! l = Some texts
      /\ texts ≡ₚ three_comments
      /\ (randomizeOrder (commenting true) = false -> texts = three_comments)
      /\ trace w' = trace (world_of mixed) ++ concat chunks
      /\ forall i c, (sessions ++ sessions) !! i = Some c ->
           exists text gap,
             texts !! (i mod length three_comments)%nat = Some text
             /\ chunks !! i
                = Some (PostComment (username c) "123456" (Some text) :: gap)
             /\ forall r, client_postComment c "123456" (Some text) = Normal r ->
                  results !! i
                  = Some (Result (username c) true (Some (Some text)) (Some r)
                                 None).
Proof.
  split; [reflexivity |]. split; [reflexivity |]. split; [discriminate |].
  apply (massComment_assigns_comments_cyclically (sessions ++ sessions)
           (commenting true) (world_of mixed) "123456" three_comments);
    [reflexivity | reflexivity | discriminate].
Defined.

End InteractionFacts.

Module HumanizationMoreFacts.

Import JSFacts Humanization HumanizationFacts HumanizationMore.

Lemma Qltb_true (a b : Q) : Qltb a b = true <-> (a < b)%Q.
Proof.
  unfold Qltb. rewrite negb_true_iff. split.
  - intros H. apply Qnot_le_lt. intros Hle.
    apply Qle_bool_iff in Hle. congruence.
  - intros H. destruct (Qle_bool b a) eqn:Hle; [| done].
    apply Qle_bool_iff in Hle. exfalso. by apply (Qlt_not_le a b).
Qed.

(** [floor (r * n)] when [n] is an integer that may be zero or negative. *)
Lemma floor_scaled_nonneg (r : unit_draw) (n : Z) :
  0 <= n -> 0 <= Math_floor (r * inject_Z n) <= n /\ (0 < n -> Math_floor (r * inject_Z n) < n).
Proof.
  intros Hn. destruct (Z.eq_dec n 0) as [-> | Hne].
  - rewrite floor_scaled_zero. lia.
  - pose proof (floor_scaled_range r n). lia.
Qed.

Lemma floor_scaled_nonpos (r : unit_draw) (n : Z) :
  n <= 0 -> n <= Math_floor (r * inject_Z n) <= 0.
Proof.
  intros Hn. destruct (draw_bounds r) as [H0 H1].
  assert (Hq : (inject_Z n <= inject_Z 0)%Q) by (by rewrite <- Zle_Qle).
  change (inject_Z 0) with 0%Q in Hq.
  unfold Math_floor. split.
  - rewrite <- (Qfloor_Z n) at 1. apply Qfloor_resp_le. nra.
  - change 0 with (Qfloor 0). apply Qfloor_resp_le. nra.
Qed.

Section Facts.
Context {E L : Type}.
Implicit Types (w : world E L).

(** X1: with the bounds in the wrong order ([max < min]) [randomInt] still
    returns, and [randomDelay] still waits, an integer between the two
    bounds: one of [max + 1 .. min]. *)
Theorem randomInt_randomDelay_misordered_bounds w (min max : Z) :
  max < min ->
  (exists v w', randomInt min max w = (Normal v, w') /\ max + 1 <= v <= min)
  /\ (exists d w', randomDelay min max w = (Normal tt, w')
        /\ trace w' = trace w ++ [Wait d] /\ max + 1 <= d <= min).
Proof.
  intros Hlt.
  pose proof (floor_scaled_nonpos (random w (cursor w)) (max - min + 1)) as Hf.
  split.
  - eexists _, _. split; [reflexivity |]. lia.
  - exists (Math_floor (random w (cursor w) * inject_Z (max - min + 1)) + min).
    eexists. split; [by cbv [randomDelay bind Math_random setTimeout emit] |].
    split; [reflexivity | lia].
Qed.

(** X2: [shouldPerformAction(p)] consumes one draw and never throws; it is
    always true when [p >= 1] and always false when [p <= 0]. *)
Theorem shouldPerformAction_certain w (probability : Q) :
  exists b,
    shouldPerformAction probability w =
      (Normal b, World (heap w) (random w) (S (cursor w)) (trace w) (locals w))
    /\ ((1 <= probability)%Q -> b = true)
    /\ ((probability <= 0)%Q -> b = false).
Proof.
  destruct (draw_bounds (random w (cursor w))) as [H0 H1].
  eexists. split; [reflexivity |]. split.
  - intros Hp. apply Qltb_true. lra.
  - intros Hp. destruct (Qltb _ _) eqn:Hb; [| done].
    apply Qltb_true in Hb. lra.
Qed.


(** X4: [generateMouseMovement()] returns a point of the 1920 by 1080
    screen and a duration from 200 to 699. *)
Theorem generateMouseMovement_on_screen w :
  exists m w',
    generateMouseMovement w = (Normal m, w')
    /\ 0 <= mouse_x m < 1920 /\ 0 <= mouse_y m < 1080
    /\ 200 <= mouse_duration m < 700.
Proof.
  pose proof (floor_scaled_range (random w (cursor w)) 1920 eq_refl) as Hx.
  pose proof (floor_scaled_range (random w (S (cursor w))) 1080 eq_refl) as Hy.
  pose proof (floor_scaled_range (random w (S (S (cursor w)))) 500 eq_refl)
    as Hd.
  eexists _, _. split; [reflexivity |].
  cbn [mouse_x mouse_y mouse_duration cursor random].
  change (inject_Z 1920) with 1920%Q in Hx.
  change (inject_Z 1080) with 1080%Q in Hy.
  change (inject_Z 500) with 500%Q in Hd.
  split; [exact Hx |]. split; [exact Hy |]. lia.
Qed.

Lemma scroll_speed_range (r : unit_draw) (minSpeed maxSpeed : Z) :
  (minSpeed <= maxSpeed ->
   minSpeed <= Math_floor (r * inject_Z (maxSpeed - minSpeed)) + minSpeed
   <= maxSpeed)
  /\ (minSpeed < maxSpeed ->
      Math_floor (r * inject_Z (maxSpeed - minSpeed)) + minSpeed < maxSpeed).
Proof.
  split; intros Hle;
    destruct (floor_scaled_nonneg r (maxSpeed - minSpeed)) as [Hf Hf']; lia.
Qed.

Lemma scroll_pattern_loop_run (minSpeed maxSpeed : Z) (n : nat) :
  forall (pattern : list scroll_action) w,
    exists rounds,
      scroll_pattern_loop minSpeed maxSpeed n pattern w =
        (Normal (pattern ++ concat rounds),
         World (heap w) (random w)
               (cursor w + (2 * n + length (concat rounds)))
               (trace w) (locals w))
      /\ length rounds = n
      /\ Forall (scroll_round minSpeed maxSpeed) rounds.
Proof.
  induction n as [| n IH]; intros pattern w.
  - exists []. split; [| done]. simpl. unfold ret. destruct w; simpl.
    by rewrite app_nil_r, Nat.add_0_r.
  - set (r1 := random w (cursor w)).
    set (r2 := random w (S (cursor w))).
    set (r3 := random w (S (S (cursor w)))).
    set (r4 := random w (S (S (S (cursor w))))).
    set (amount := Math_floor (r1 * 500) + 300).
    set (speed := Math_floor (r2 * inject_Z (maxSpeed - minSpeed)) + minSpeed).
    assert (Hamount : 300 <= amount < 800).
    { pose proof (floor_scaled_range r1 500 eq_refl) as H.
      change (inject_Z 500) with 500%Q in H. unfold amount. lia. }
    destruct (scroll_speed_range r2 minSpeed maxSpeed) as [Hs1 Hs2].
    destruct (Qltb r3 (3 # 10)) eqn:Hpause.
    + set (p := Math_floor (r4 * 4000) + 1000).
      assert (Hp : 1000 <= p < 5000).
      { pose proof (floor_scaled_range r4 4000 eq_refl) as H.
        change (inject_Z 4000) with 4000%Q in H. unfold p. lia. }
      destruct (IH ((pattern ++ [Scroll amount speed]) ++ [Pause p])
                  (World (heap w) (random w) (S (S (S (S (cursor w)))))
                         (trace w) (locals w)))
        as (rounds & Hrun & Hlen & Hall).
      exists ([Scroll amount speed; Pause p] :: rounds).
      split; [| split].
      * cbn [scroll_pattern_loop]. unfold bind. cbn [Math_random fst snd].
        cbn [cursor random heap trace locals]. fold r1 r2 r3 r4.
        rewrite Hpause. cbn [Math_random cursor random heap trace locals].
        fold r4. fold amount speed p. rewrite Hrun.
        cbn [cursor random heap trace locals concat].
        rewrite <- !app_assoc. do 2 f_equal.
        -- cbn [length app]. lia.
      * simpl. by rewrite Hlen.
      * constructor; [| done]. exists amount, speed.
        split; [done |]. split; [done |]. split; [done |].
        right. by exists p.
    + destruct (IH (pattern ++ [Scroll amount speed])
                  (World (heap w) (random w) (S (S (S (cursor w))))
                         (trace w) (locals w)))
        as (rounds & Hrun & Hlen & Hall).
      exists ([Scroll amount speed] :: rounds).
      split; [| split].
      * cbn [scroll_pattern_loop]. unfold bind. cbn [Math_random fst snd].
        cbn [cursor random heap trace locals]. fold r1 r2 r3.
        rewrite Hpause. fold amount speed. rewrite Hrun.
        cbn [cursor random heap trace locals concat].
        rewrite <- !app_assoc. do 2 f_equal.
        -- cbn [length app]. lia.
      * simpl. by rewrite Hlen.
      * constructor; [| done]. exists amount, speed.
        split; [done |]. split; [done |]. split; [done |]. by left.
Qed.

(** X5: [generateScrollPattern(scrollCount, minSpeed, maxSpeed)] returns
    [scrollCount] rounds (none when [scrollCount <= 0]), each a scroll of
    300 to 799 pixels, perhaps followed by one pause of 1000 to 4999 ms; the
    scroll delay lies between the speed bounds and stays below [maxSpeed]
    when [minSpeed < maxSpeed].  It makes two draws per round plus one per
    step, and neither waits nor touches any array. *)
Theorem generateScrollPattern_rounds w (scrollCount minSpeed maxSpeed : Z) :
  exists rounds,
    generateScrollPattern scrollCount minSpeed maxSpeed w =
      (Normal (concat rounds),
       World (heap w) (random w)
             (cursor w + (2 * Z.to_nat scrollCount + length (concat rounds)))
             (trace w) (locals w))
    /\ length rounds = Z.to_nat scrollCount
    /\ Forall (scroll_round minSpeed maxSpeed) rounds.
Proof.
  destruct (scroll_pattern_loop_run minSpeed maxSpeed (Z.to_nat scrollCount) [] w)
    as (rounds & Hrun & Hlen & Hall).
  by exists rounds.
Qed.

(** [executeScrollPattern] waits once per step, in order, and draws nothing. *)
Lemma executeScrollPattern_run (pattern : list scroll_action) :
  forall w,
    executeScrollPattern pattern w =
      (Normal tt,
       World (heap w) (random w) (cursor w)
             (trace w ++ (Wait ∘ action_delay <$> pattern)) (locals w)).
Proof.
  induction pattern as [| a pattern IH]; intros w.
  - simpl. unfold ret. destruct w; simpl. by rewrite app_nil_r.
  - cbn [executeScrollPattern]. unfold bind, setTimeout, emit.
    rewrite IH. cbn [heap random cursor trace locals].
    by rewrite <- app_assoc.
Qed.



End Facts.

(** Witness of [randomInt_randomDelay_misordered_bounds] at [min = 9],
    [max = 5]. *)
Lemma randomInt_randomDelay_misordered_bounds_witness :
  5 < 9
  /\ ((exists v w', randomInt 9 5 Examples.empty_world = (Normal v, w')
         /\ 5 + 1 <= v <= 9)
      /\ (exists d w', randomDelay 9 5 Examples.empty_world = (Normal tt, w')
            /\ trace w' = trace Examples.empty_world ++ [Wait d]
            /\ 5 + 1 <= d <= 9)).
Proof.
  split; [lia |].
  apply (randomInt_randomDelay_misordered_bounds Examples.empty_world 9 5); lia.
Defined.


End HumanizationMoreFacts.

Module AccountManagerMoreFacts.

Import AccountManager AccountManagerFacts AccountManagerMore.

Lemma has_username_true (username : string) (acc : Account) :
  has_username username acc = true
  <-> acc !! "username" = Some (JString username).
Proof.
  unfold has_username.
  destruct (acc !! "username") as [[| | | s | |] |]; try (split; [discriminate | congruence]).
  destruct (String.eqb_spec s username) as [-> | Hne]; split; congruence.
Qed.

Lemma find_account_Some (m : manager) (username : string) (i : nat)
    (acc : Account) :
  find_account m username = Some (i, acc)
  <-> accounts m !! i = Some acc
      /\ acc !! "username" = Some (JString username)
      /\ forall j other, accounts m !! j = Some other -> (j < i)%nat ->
           other !! "username" <> Some (JString username).
Proof.
  unfold find_account. rewrite list_find_Some.
  rewrite has_username_true.
  split; intros (Hi & Hu & Hfirst); (split; [done |]; split; [done |]);
    intros j other Hj Hlt; specialize (Hfirst j other Hj Hlt);
    by rewrite has_username_true in *.
Qed.

Lemma find_account_None (m : manager) (username : string) :
  find_account m username = None
  <-> forall acc, acc ∈ accounts m ->
        acc !! "username" <> Some (JString username).
Proof.
  unfold find_account. rewrite list_find_None, Forall_forall.
  split; intros H acc Hin; specialize (H acc Hin);
    by rewrite has_username_true in *.
Qed.

(** X7: [getAccount(username)] returns the first stored account, valid or
    not, whose [username] is that string, and [null] exactly when no stored
    account has it. *)
Theorem getAccount_first_match (m : manager) (username : string) :
  match getAccount m username with
  | Some acc =>
      exists i,
        accounts m !! i = Some acc
        /\ acc !! "username" = Some (JString username)
        /\ forall j other, accounts m !! j = Some other -> (j < i)%nat ->
             other !! "username" <> Some (JString username)
  | None =>
      forall acc, acc ∈ accounts m ->
        acc !! "username" <> Some (JString username)
  end.
Proof.
  unfold getAccount.
  destruct (find_account m username) as [[i acc] |] eqn:Hfind; simpl.
  - exists i. by apply find_account_Some.
  - by apply find_account_None.
Qed.

(** X8: [updateAccount(username, updates)] returns [false] and changes
    nothing when no stored account has that user name; otherwise it returns
    [true] and replaces only the first such account, by its merge with
    [updates], leaving every other entry, the number of accounts and the
    order as they were. *)
Theorem updateAccount_replaces_first_match (m : manager) (username : string)
    (updates : Account) :
  match getAccount m username with
  | None => updateAccount m username updates = (false, m)
  | Some acc =>
      exists i,
        updateAccount m username updates
        = (true, Manager (configPath m)
                         (<[i := updates ∪ acc]> (accounts m)) (console m))
        /\ accounts m !! i = Some acc
        /\ (forall j other, accounts m !! j = Some other -> (j < i)%nat ->
              other !! "username" <> Some (JString username))
        /\ getAccountCount (updateAccount m username updates).2
           = getAccountCount m
        /\ (forall j, j <> i ->
              accounts (updateAccount m username updates).2 !! j
              = accounts m !! j)
        /\ accounts (updateAccount m username updates).2 !! i
           = Some (updates ∪ acc)
  end.
Proof.
  unfold getAccount, updateAccount.
  destruct (find_account m username) as [[i acc] |] eqn:Hfind; simpl; [| done].
  apply find_account_Some in Hfind as (Hi & Hu & Hfirst).
  exists i. split; [done |]. split; [done |]. split; [done |].
  unfold getAccountCount; simpl.
  split; [by rewrite length_insert |].
  split; [intros j Hj; by rewrite list_lookup_insert_ne |].
  apply list_lookup_insert_eq. by eapply lookup_lt_Some.
Qed.

(** X9: after [updateAccount(username, updates)] on a stored user name,
    with [updates] not renaming the account, [getAccount(username)] returns
    the merged account: every property of [updates] with the value given
    there, every other property as it was stored. *)
Theorem updateAccount_then_getAccount (m : manager) (username : string)
    (updates acc : Account) :
  getAccount m username = Some acc ->
  updates !! "username" = None ->
  getAccount (updateAccount m username updates).2 username
    = Some (updates ∪ acc)
  /\ (forall k v, updates !! k = Some v -> (updates ∪ acc) !! k = Some v)
  /\ (forall k, updates !! k = None -> (updates ∪ acc) !! k = acc !! k).
Proof.
  intros Hget Hname.
  split; [| split].
  - unfold getAccount in *. unfold updateAccount.
    destruct (find_account m username) as [[i acc'] |] eqn:Hfind;
      [| discriminate Hget].
    simpl in Hget. injection Hget as ->.
    apply find_account_Some in Hfind as (Hi & Hu & Hfirst). simpl.
    assert (Hi' : (i < length (accounts m))%nat) by by eapply lookup_lt_Some.
    assert (Hfind' : find_account
              (Manager (configPath m) (<[i := updates ∪ acc]> (accounts m))
                       (console m)) username = Some (i, updates ∪ acc)).
    { apply find_account_Some. simpl.
      split; [by apply list_lookup_insert_eq |].
      split; [by rewrite lookup_union_r |].
      intros j other Hj Hlt.
      rewrite list_lookup_insert_ne in Hj by lia. by eapply Hfirst. }
    by rewrite Hfind'.
  - intros k v Hk. by apply lookup_union_Some_l.
  - intros k Hk. by apply lookup_union_r.
Qed.

(** Witness of [updateAccount_then_getAccount]: [bob] gets a user agent. *)
Lemma updateAccount_then_getAccount_witness :
  getAccount Examples.registry "bob" = Some Examples.bob
  /\ ({[ "userAgent"%string := JString "UA" ]} : Account) !! "username" = None
  /\ getAccount (updateAccount Examples.registry "bob"
                   {[ "userAgent"%string := JString "UA" ]}).2 "bob"
     = Some ({[ "userAgent"%string := JString "UA" ]} ∪ Examples.bob)
  /\ (forall k v,
        ({[ "userAgent"%string := JString "UA" ]} : Account) !! k = Some v ->
        ({[ "userAgent"%string := JString "UA" ]} ∪ Examples.bob) !! k = Some v)
  /\ (forall k,
        ({[ "userAgent"%string := JString "UA" ]} : Account) !! k = None ->
        ({[ "userAgent"%string := JString "UA" ]} ∪ Examples.bob) !! k
        = Examples.bob !! k).
Proof.
  split; [by vm_compute |]. split; [by vm_compute |].
  apply (updateAccount_then_getAccount Examples.registry "bob"
           {[ "userAgent"%string := JString "UA" ]} Examples.bob);
    by vm_compute.
Defined.

(** The update can make a rejected account pass: [bob] with a user agent
    is among the valid accounts afterwards. *)
Example updateAccount_makes_bob_valid :
  (validateAccount Examples.bob).1 = false
  /\ length (getValidAccounts Examples.registry).1 = 2%nat
  /\ length (getValidAccounts
               (updateAccount Examples.registry "bob"
                  {[ "userAgent"%string := JString "UA" ]}).2).1 = 3%nat.
Proof. repeat split; by vm_compute. Qed.



End AccountManagerMoreFacts.

Module InteractionMoreFacts.

Import JSFacts Humanization HumanizationFacts InteractionModule InteractionFacts.

Lemma append_cons_eq (c : ascii) (s t : string) :
  String c s +:+ t = String c (s +:+ t).
Proof. reflexivity. Qed.

Lemma append_empty_eq (t : string) : "" +:+ t = t.
Proof. reflexivity. Qed.

Lemma after_prefix_Some (p s t : string) :
  after_prefix p s = Some t <-> s = p +:+ t.
Proof.
  revert s. induction p as [| a p IH]; intros s; cbn [after_prefix].
  - rewrite append_empty_eq. split; congruence.
  - rewrite append_cons_eq. destruct s as [| b s]; [split; discriminate |].
    destruct (Ascii.eqb_spec a b) as [-> | Hne].
    + rewrite IH. split; congruence.
    + split; [discriminate | congruence].
Qed.

(** The greedy run of digits: what is left does not start with a digit. *)
Lemma digits_split (s : string) :
  exists post,
    s = digits s +:+ post
    /\ Forall (fun c => is_digit c = true) (list_ascii_of_string (digits s))
    /\ (forall c rest, post = String c rest -> is_digit c = false).
Proof.
  induction s as [| c s (post & Heq & Hall & Hpost)]; cbn [digits].
  - exists ""%string. by repeat split.
  - destruct (is_digit c) eqn:Hc.
    + exists post. rewrite append_cons_eq. split; [congruence |].
      split; [by constructor | done].
    + exists (String c s). split; [done |]. split; [constructor |].
      by intros ? ? [= <- <-].
Qed.

Lemma digits_head (c : ascii) (s : string) :
  is_digit c = true -> digits (String c s) <> ""%string.
Proof. intros Hc. cbn [digits]. by rewrite Hc. Qed.

Lemma match_video_sound (url d : string) :
  match_video url = Some d ->
  exists pre post,
    url = pre +:+ "/video/" +:+ d +:+ post
    /\ (forall c rest, post = String c rest -> is_digit c = false)
    /\ forall pre' c rest,
         url = pre' +:+ "/video/" +:+ String c rest -> is_digit c = true ->
         (String.length pre <= String.length pre')%nat.
Proof.
  revert d. induction url as [| a url IH]; intros d; [discriminate |].
  cbn [match_video].
  assert (Hskip : match_video url = Some d ->
            (forall tail, String a url = "/video/" +:+ tail ->
                          digits tail = ""%string) ->
            exists pre post,
              String a url = pre +:+ "/video/" +:+ d +:+ post
              /\ (forall c rest, post = String c rest -> is_digit c = false)
              /\ forall pre' c rest,
                   String a url = pre' +:+ "/video/" +:+ String c rest ->
                   is_digit c = true ->
                   (String.length pre <= String.length pre')%nat).
  { intros Hm Hhere.
    destruct (IH d Hm) as (pre & post & Heq & Hpost & Hleft).
    exists (String a pre), post.
    split; [rewrite append_cons_eq; congruence |]. split; [done |].
    intros [| b pre'] c rest Heq' Hc.
    - rewrite append_empty_eq in Heq'. specialize (Hhere _ Heq').
      exfalso. by apply (digits_head c rest).
    - rewrite append_cons_eq in Heq'. injection Heq' as -> Heq'.
      cbn [String.length]. apply le_n_S. by eapply Hleft. }
  destruct (after_prefix "/video/" (String a url)) as [tail |] eqn:Hpre.
  - apply after_prefix_Some in Hpre.
    destruct (digits tail) as [| b ds] eqn:Hd.
    + intros Hm. apply (Hskip Hm). intros tail' Heq.
      rewrite Hpre in Heq. apply after_prefix_Some in Heq.
      assert (Hself : after_prefix "/video/" ("/video/" +:+ tail) = Some tail)
        by by apply after_prefix_Some.
      congruence.
    + intros [= <-].
      destruct (digits_split tail) as (post & Heq & _ & Hpost).
      exists ""%string, post. split; [| split; [done |]].
      * rewrite append_empty_eq, Hpre. rewrite Hd in Heq. by rewrite Heq at 1.
      * intros; cbn [String.length]; lia.
  - intros Hm. apply (Hskip Hm). intros tail Heq.
    apply after_prefix_Some in Heq. congruence.
Qed.

Lemma match_video_digits (url d : string) :
  match_video url = Some d ->
  d <> ""%string
  /\ Forall (fun c => is_digit c = true) (list_ascii_of_string d).
Proof.
  intros Hm. split; [by eapply match_video_nonempty |].
  revert Hm. induction url as [| a url IH]; [discriminate |].
  cbn [match_video].
  destruct (after_prefix "/video/" (String a url)) as [tail |]; [| exact IH].
  destruct (digits tail) as [| b ds] eqn:Hd; [exact IH |].
  intros [= <-]. rewrite <- Hd.
  by destruct (digits_split tail) as (post & _ & Hall & _).
Qed.

Lemma match_video_None (url : string) :
  match_video url = None <->
  forall pre c rest,
    url = pre +:+ "/video/" +:+ String c rest -> is_digit c = false.
Proof.
  split.
  - intros Hnone pre c rest Heq.
    destruct (is_digit c) eqn:Hc; [| done]. exfalso.
    revert url Hnone Heq. induction pre as [| a pre IH]; intros url Hnone Heq.
    + rewrite append_empty_eq in Heq.
      apply after_prefix_Some in Heq.
      pose proof (digits_head c rest Hc) as Hd.
      destruct url as [| a url]; [discriminate Heq |].
      cbn [match_video] in Hnone. rewrite Heq in Hnone.
      by destruct (digits (String c rest)).
    + rewrite append_cons_eq in Heq. subst url. cbn [match_video] in Hnone.
      apply (IH (pre +:+ "/video/" +:+ String c rest)); [| done].
      destruct (after_prefix "/video/"
                  (String a (pre +:+ "/video/" +:+ String c rest)))
        as [tail |]; [| done].
      by destruct (digits tail).
  - intros Hno. induction url as [| a url IH]; [done |].
    cbn [match_video].
    assert (Hrest : match_video url = None).
    { apply IH. intros pre c rest Heq.
      apply (Hno (String a pre) c rest). rewrite append_cons_eq. congruence. }
    destruct (after_prefix "/video/" (String a url)) as [tail |] eqn:Hpre;
      [| done].
    apply after_prefix_Some in Hpre.
    destruct (digits tail) as [| b ds] eqn:Hd; [done |]. exfalso.
    destruct tail as [| c rest]; [discriminate Hd |].
    specialize (Hno ""%string c rest Hpre).
    cbn [digits] in Hd. rewrite Hno in Hd. discriminate Hd.
Qed.

(** X11: when [extractVideoId(url)] returns an identifier, it is a
    non-empty string of decimal digits that follows the leftmost
    [/video/] of the link that is followed by a digit, and it takes every
    digit there: what comes after it does not start with a digit. *)
Theorem extractVideoId_leftmost_digits (url d : string) :
  extractVideoId (Some url) = Some d ->
  d <> ""%string
  /\ Forall (fun c => is_digit c = true) (list_ascii_of_string d)
  /\ exists pre post,
      url = pre +:+ "/video/" +:+ d +:+ post
      /\ (forall c rest, post = String c rest -> is_digit c = false)
      /\ forall pre' c rest,
           url = pre' +:+ "/video/" +:+ String c rest -> is_digit c = true ->
           (String.length pre <= String.length pre')%nat.
Proof.
  cbn [extractVideoId]. intros Hm.
  destruct (match_video_digits url d Hm) as [Hne Hall].
  split; [done |]. split; [done |]. by apply match_video_sound.
Qed.

(** X12: [extractVideoId(url)] returns [null] exactly when there is no
    link, or the link nowhere has [/video/] followed by a digit. *)
Theorem extractVideoId_null_iff (url : option string) :
  extractVideoId url = None <->
  match url with
  | None => True
  | Some u =>
      forall pre c rest,
        u = pre +:+ "/video/" +:+ String c rest -> is_digit c = false
  end.
Proof.
  destruct url as [u |]; cbn [extractVideoId]; [apply match_video_None | done].
Qed.

(** Witness of [extractVideoId_leftmost_digits] on a video link. *)
Lemma extractVideoId_leftmost_digits_witness :
  extractVideoId (Some "https://x.tiktok.com/@u/video/123456?lang=en"%string)
    = Some "123456"%string
  /\ "123456"%string <> ""%string
  /\ Forall (fun c => is_digit c = true) (list_ascii_of_string "123456")
  /\ exists pre post,
      "https://x.tiktok.com/@u/video/123456?lang=en"%string
      = pre +:+ "/video/" +:+ "123456" +:+ post
      /\ (forall c rest, post = String c rest -> is_digit c = false)
      /\ forall pre' c rest,
           "https://x.tiktok.com/@u/video/123456?lang=en"%string
           = pre' +:+ "/video/" +:+ String c rest ->
           is_digit c = true ->
           (String.length pre <= String.length pre')%nat.
Proof.
  split; [reflexivity |].
  apply (extractVideoId_leftmost_digits
           "https://x.tiktok.com/@u/video/123456?lang=en" "123456").
  reflexivity.
Defined.

Section Facts.
Context {Response : Type}.
Implicit Types (w : world string (list (result Response))).
Implicit Types (clients : list (TikTokClient Response)).

(** X13: [massComment] throws [No valid video ID provided] exactly when
    [config.videoId] is missing or empty and the link has no video
    identifier; it then has contacted no client, waited for nothing, drawn
    nothing and copied nothing.  [massLikeComment] throws
    [No comment ID provided], in the same way, exactly when
    [config.commentId] is missing or empty, and otherwise always returns. *)
Theorem mass_operations_fail_fast_without_target clients
    (cconfig : CommentingConfig) (lconfig : LikingConfig) w :
  ((massComment clients cconfig w).1
     = Throw (mkError "No valid video ID provided")
   <-> truthy_string (videoId cconfig) = false
       /\ extractVideoId (videoUrl cconfig) = None)
  /\ ((massComment clients cconfig w).1
        = Throw (mkError "No valid video ID provided")
      -> (massComment clients cconfig w).2 = w)
  /\ (massLikeComment clients lconfig w
        = (Throw (mkError "No comment ID provided"), w)
      <-> truthy_string (commentId lconfig) = false)
  /\ (truthy_string (commentId lconfig) = true ->
      exists results w', massLikeComment clients lconfig w = (Normal results, w')).
Proof.
  assert (Htarget : target_video cconfig = None
                    <-> truthy_string (videoId cconfig) = false
                        /\ extractVideoId (videoUrl cconfig) = None).
  { unfold target_video. destruct (truthy_string (videoId cconfig)) eqn:Ht.
    - split; [| by intros [? _]].
      intros Hv. rewrite Hv in Ht. discriminate Ht.
    - split; [done | by intros [_ ?]]. }
  assert (Hcases : target_video cconfig = None
                   /\ massComment clients cconfig w
                      = (Throw (mkError "No valid video ID provided"), w)
                   \/ (exists vid, target_video cconfig = Some vid)
                      /\ (massComment clients cconfig w).1
                         <> Throw (mkError "No valid video ID provided")).
  { destruct (target_video cconfig) as [vid |] eqn:Hv.
    - right. split; [by exists vid |].
      destruct (heap w !! comments cconfig) as [configured |] eqn:Hconf.
      + destruct (massComment_run clients cconfig w vid configured Hv Hconf)
          as (l & texts & chunks & w' & Hrun & _).
        by rewrite Hrun.
      + pose proof (target_video_nonempty cconfig vid Hv) as Hne.
        apply String.eqb_neq in Hne.
        unfold massComment. rewrite Hv, Hne.
        unfold bind at 1. unfold read_array at 1. by rewrite Hconf.
    - left. split; [done |]. unfold massComment. by rewrite Hv. }
  split; [| split; [| split]].
  - rewrite <- Htarget.
    destruct Hcases as [[Hnone Hrun] | [[vid Hsome] Hrun]].
    + by rewrite Hrun.
    + split; [done | congruence].
  - destruct Hcases as [[Hnone Hrun] | [_ Hrun]]; [by rewrite Hrun | done].
  - unfold massLikeComment, truthy_string.
    destruct (commentId lconfig) as [cid |] eqn:Hcid; [| done].
    destruct (String.eqb_spec cid "") as [-> | Hne]; [done |].
    destruct (massLikeComment_run clients lconfig w cid Hcid Hne)
      as (chunks & w' & Hrun & _).
    unfold massLikeComment in Hrun. rewrite Hcid in Hrun.
    apply String.eqb_neq in Hne. rewrite Hne in Hrun.
    rewrite Hrun. by split.
  - unfold truthy_string.
    destruct (commentId lconfig) as [cid |] eqn:Hcid; [| discriminate].
    destruct (String.eqb_spec cid "") as [-> | Hne]; [discriminate |].
    intros _.
    destruct (massLikeComment_run clients lconfig w cid Hcid Hne)
      as (chunks & w' & Hrun & _).
    by eexists _, w'.
Qed.

(** X14: with an empty list of configured comments [massComment] still
    calls every client, with the comment [undefined], and a successful
    entry records that [undefined]. *)
Theorem massComment_without_comments_posts_undefined clients
    (config : CommentingConfig) w (vid : string) :
  target_video config = Some vid ->
  heap w !! comments config = Some [] ->
  exists results chunks w',
    massComment clients config w = (Normal results, w')
    /\ trace w' = trace w ++ concat chunks
    /\ length results = length clients
    /\ forall j c, clients !! j = Some c ->
         (exists gap, chunks !! j = Some (PostComment (username c) vid None :: gap))
         /\ results !! j
            = Some (entry_of c (Some None) (client_postComment c vid None)).
Proof.
  intros Htarget Hconf.
  destruct (massComment_run clients config w vid [] Htarget Hconf)
    as (l & texts & chunks & w' & Hrun & _ & _ & Hperm & _ & _ & Htr & _ & Hch).
  apply Permutation_nil_r in Hperm. subst texts.
  eexists _, chunks, w'. split; [exact Hrun |]. split; [done |].
  split; [by rewrite length_imap |].
  intros j c Hj. split.
  - destruct (Hch j c Hj) as (gap & Hc & _). by exists gap.
  - by rewrite list_lookup_imap, Hj.
Qed.

End Facts.

(** Witness of [massComment_without_comments_posts_undefined]. *)
Lemma massComment_without_comments_posts_undefined_witness :
  target_video (Examples.commenting false) = Some "123456"%string
  /\ heap MoreExamples.world_without_comments
       !! comments (Examples.commenting false) = Some []
  /\ exists results chunks w',
      massComment Examples.sessions (Examples.commenting false)
                  MoreExamples.world_without_comments
      = (Normal results, w')
      /\ trace w' = trace MoreExamples.world_without_comments ++ concat chunks
      /\ length results = length Examples.sessions
      /\ forall j c, Examples.sessions !! j = Some c ->
           (exists gap,
              chunks !! j
              = Some (PostComment (username c) "123456" None :: gap))
           /\ results !! j
              = Some (entry_of c (Some None)
                               (client_postComment c "123456" None)).
Proof.
  split; [reflexivity |]. split; [reflexivity |].
  apply (massComment_without_comments_posts_undefined Examples.sessions
           (Examples.commenting false) MoreExamples.world_without_comments
           "123456");
    reflexivity.
Defined.

End InteractionMoreFacts.

Module WarmingFacts.

Import JSFacts Humanization HumanizationFacts HumanizationMore
       HumanizationMoreFacts WarmingActivities.

Section Facts.
Context {Response : Type}.
Local Abbreviation Run := (M string (warm_locals Response)).
Implicit Types (w : world string (warm_locals Response)).
Implicit Types (client : WarmClient Response).

Lemma advance_refl w : advance w w [] [].
Proof. unfold advance. by rewrite !app_nil_r. Qed.

Lemma advance_trans w w1 w2 (ws1 ws2 : list Z) (cs1 cs2 : list client_call) :
  advance w w1 ws1 cs1 -> advance w1 w2 ws2 cs2 ->
  advance w w2 (ws1 ++ ws2) (cs1 ++ cs2).
Proof.
  intros (Hh1 & Hr1 & Hc1 & Ht1 & Hl1 & Hs1) (Hh2 & Hr2 & Hc2 & Ht2 & Hl2 & Hs2).
  unfold advance.
  rewrite Hh2, Hh1, Hr2, Hr1, Ht2, Ht1, Hl2, Hl1, Hs2, Hs1, fmap_app, !app_assoc.
  repeat split; try done. lia.
Qed.

(** Only the cursor moved. *)
Lemma advance_draws w (c : nat) :
  (cursor w <= c)%nat ->
  advance w (World (heap w) (random w) c (trace w) (locals w)) [] [].
Proof. intros Hc. unfold advance; simpl. by rewrite !app_nil_r. Qed.

Lemma returns_ret {R : Type} (v : R) w
    (post : R -> list Z -> list client_call -> Prop) :
  post v [] [] -> returns (ret v) w post.
Proof. intros H. exists v, w, [], []. split; [done |]. split; [apply advance_refl | done]. Qed.

Lemma returns_bind {R S : Type} (c : Run R) (k : R -> Run S) w
    (P1 : R -> list Z -> list client_call -> Prop)
    (P2 : R -> S -> list Z -> list client_call -> Prop)
    (post : S -> list Z -> list client_call -> Prop) :
  returns c w P1 ->
  (forall v ws cs w1, P1 v ws cs -> returns (k v) w1 (P2 v)) ->
  (forall v ws1 cs1 u ws2 cs2,
     P1 v ws1 cs1 -> P2 v u ws2 cs2 -> post u (ws1 ++ ws2) (cs1 ++ cs2)) ->
  returns (bind c k) w post.
Proof.
  intros (v & w1 & ws1 & cs1 & Hrun1 & Hadv1 & H1) Hk Hpost.
  destruct (Hk v ws1 cs1 w1 H1) as (u & w2 & ws2 & cs2 & Hrun2 & Hadv2 & H2).
  exists u, w2, (ws1 ++ ws2), (cs1 ++ cs2).
  split; [by unfold bind; rewrite Hrun1 |].
  split; [by eapply advance_trans | by eapply Hpost].
Qed.

Lemma returns_mono {R : Type} (c : Run R) w
    (P Q : R -> list Z -> list client_call -> Prop) :
  returns c w P -> (forall v ws cs, P v ws cs -> Q v ws cs) -> returns c w Q.
Proof.
  intros (v & w' & ws & cs & Hrun & Hadv & HP) HPQ.
  exists v, w', ws, cs. auto.
Qed.

Lemma returns_try {R : Type} (body : Run R) (handler : Error -> Run R) w
    (post : R -> list Z -> list client_call -> Prop) :
  returns body w post -> returns (try_catch body handler) w post.
Proof.
  intros (v & w' & ws & cs & Hrun & Hadv & HP).
  exists v, w', ws, cs. split; [by unfold try_catch; rewrite Hrun | done].
Qed.

Lemma returns_when (cond : bool) (body : Run unit) w
    (P post : unit -> list Z -> list client_call -> Prop) :
  returns body w P ->
  (forall ws cs, cond = true -> P tt ws cs -> post tt ws cs) ->
  (cond = false -> post tt [] []) ->
  returns (when cond body) w post.
Proof.
  intros Hbody Htrue Hfalse. destruct cond; simpl.
  - eapply returns_mono; [exact Hbody |]. intros [] ws cs. by apply Htrue.
  - apply returns_ret. by apply Hfalse.
Qed.

Lemma randomDelay_run (lo hi : Z) w :
  randomDelay lo hi w =
    (Normal tt,
     World (heap w) (random w) (S (cursor w))
           (trace w ++ [Wait (Math_floor (random w (cursor w)
                                          * inject_Z (hi - lo + 1)) + lo)])
           (locals w)).
Proof. reflexivity. Qed.

Lemma returns_randomDelay (lo hi : Z) w :
  returns (randomDelay lo hi) w
    (fun _ ws cs => cs = [] /\ exists d, ws = [d] /\ (lo <= hi -> lo <= d <= hi)).
Proof.
  exists tt. eexists. eexists [_], []. split; [apply randomDelay_run |]. split.
  - unfold advance; simpl. rewrite !app_nil_r. repeat split; try done. lia.
  - split; [done |]. eexists. split; [done |]. apply pick_in_range.
Qed.

Lemma returns_randomInt (lo hi : Z) w :
  returns (randomInt lo hi) w
    (fun v ws cs => ws = [] /\ cs = [] /\ (lo <= hi -> lo <= v <= hi)).
Proof.
  eexists _, _, [], []. split; [reflexivity |]. split.
  - apply advance_draws. lia.
  - split; [done |]. split; [done |]. apply pick_in_range.
Qed.

Lemma returns_shouldPerformAction (p : Q) w :
  returns (shouldPerformAction p) w (fun _ ws cs => ws = [] /\ cs = []).
Proof.
  eexists _, _, [], []. split; [reflexivity |]. split; [| done].
  apply advance_draws. lia.
Qed.

Lemma returns_randomChoice (xs : list string) w :
  returns (randomChoice xs) w
    (fun v ws cs => ws = [] /\ cs = [] /\ query_from xs v).
Proof.
  eexists _, _, [], []. split; [reflexivity |]. split.
  - apply advance_draws. lia.
  - split; [done |]. split; [done |].
    destruct xs as [| x xs]; cbn [query_from].
    + change (Z.of_nat (length [])) with 0. by rewrite floor_scaled_zero.
    + apply index_in_range, floor_scaled_range. simpl length. lia.
Qed.

Lemma returns_generateScrollPattern (count lo hi : Z) w :
  returns (generateScrollPattern count lo hi) w
    (fun pattern ws cs =>
       ws = [] /\ cs = []
       /\ exists rounds,
           pattern = concat rounds /\ length rounds = Z.to_nat count
           /\ Forall (scroll_round lo hi) rounds).
Proof.
  destruct (scroll_pattern_loop_run (E := string) (L := warm_locals Response)
              lo hi (Z.to_nat count) [] w)
    as (rounds & Hrun & Hlen & Hall).
  eexists _, _, [], []. split; [exact Hrun |]. split.
  - apply advance_draws. lia.
  - split; [done |]. split; [done |]. by exists rounds.
Qed.

Lemma returns_executeScrollPattern (pattern : list scroll_action) w :
  returns (executeScrollPattern pattern) w
    (fun _ ws cs => ws = action_delay <$> pattern /\ cs = []).
Proof.
  eexists _, _, _, []. split; [apply executeScrollPattern_run |]. split; [| done].
  unfold advance; simpl. rewrite !app_nil_r, list_fmap_compose.
  repeat split; try done.
Qed.

(** A call whose failure is swallowed: it is logged, and nothing else
    happens, whatever its outcome. *)
Lemma returns_getFeed_swallowed client w :
  returns (try_catch (call_getFeed client ;;; ret tt) (fun _ => ret tt)) w
    (fun _ ws cs => ws = [] /\ cs = [GetFeed (username client)]).
Proof.
  unfold returns, try_catch, call_getFeed, log_call, bind, get_locals,
    set_locals, await, ret; simpl.
  destruct (client_getFeed client); eexists tt, _, [], [_];
    (split; [reflexivity |]; split; [| done]);
    unfold advance; simpl; rewrite app_nil_r; repeat split; done.
Qed.

Lemma returns_search_swallowed client (query : option string) w :
  returns (try_catch (call_search client query ;;; ret tt) (fun _ => ret tt)) w
    (fun _ ws cs => ws = [] /\ cs = [Search (username client) query]).
Proof.
  unfold returns, try_catch, call_search, log_call, bind, get_locals,
    set_locals, await, ret; simpl.
  destruct (client_search client query); eexists tt, _, [], [_];
    (split; [reflexivity |]; split; [| done]);
    unfold advance; simpl; rewrite app_nil_r; repeat split; done.
Qed.

(** Sequencing, with the strongest postcondition. *)
Lemma returns_seq {R S : Type} (c : Run R) (k : R -> Run S) w
    (P1 : R -> list Z -> list client_call -> Prop)
    (P2 : R -> S -> list Z -> list client_call -> Prop) :
  returns c w P1 ->
  (forall v w1, returns (k v) w1 (P2 v)) ->
  returns (bind c k) w
    (fun u ws cs =>
       exists v ws1 cs1 ws2 cs2,
         ws = ws1 ++ ws2 /\ cs = cs1 ++ cs2
         /\ P1 v ws1 cs1 /\ P2 v u ws2 cs2).
Proof.
  intros H1 H2.
  eapply (returns_bind c k w P1 P2); [exact H1 | intros; apply H2 |].
  intros v ws1 cs1 u ws2 cs2 HP1 HP2. by exists v, ws1, cs1, ws2, cs2.
Qed.

Lemma returns_when_sp (cond : bool) (body : Run unit) w
    (P : unit -> list Z -> list client_call -> Prop) :
  returns body w P ->
  returns (when cond body) w
    (fun _ ws cs => if cond then P tt ws cs else ws = [] /\ cs = []).
Proof.
  intros Hbody. destruct cond; simpl.
  - eapply returns_mono; [exact Hbody |]. by intros [] ws cs.
  - by apply returns_ret.
Qed.

(** A wait of a drawn length: [randomInt(a, b)] then
    [randomDelay(x, x + k)]. *)
Lemma returns_drawn_wait (a b k : Z) w :
  returns (let! x := randomInt a b in randomDelay x (x + k)) w
    (fun _ ws cs =>
       cs = [] /\ exists d, ws = [d] /\ (a <= b -> 0 <= k -> a <= d <= b + k)).
Proof.
  eapply returns_mono.
  { eapply returns_seq; [apply returns_randomInt |].
    intros x w1. apply returns_randomDelay. }
  cbv beta.
  intros [] ws cs (x & ws1 & cs1 & ws2 & cs2 & -> & -> & (-> & -> & Hx)
                   & -> & d & -> & Hd).
  split; [done |]. exists d. split; [done |]. intros Hab Hk.
  specialize (Hx Hab). lia.
Qed.


Lemma performScrolling_returns (config : WarmingConfig) w :
  returns (performScrolling config) w
    (fun _ ws cs =>
       cs = []
       /\ match scroll (activities_of config) with
          | Some s =>
              if scroll_enabled s
              then
                exists rounds,
                  ws = action_delay <$> concat rounds
                  /\ count_between (or_default (minScrolls s) 5)
                                   (or_default (maxScrolls s) 15)
                                   (length rounds)
                  /\ Forall (scroll_round (or_default (scrollSpeedMin s) 1000)
                                          (or_default (scrollSpeedMax s) 3000))
                            rounds
              else ws = []
          | None => ws = []
          end).
Proof.
  unfold performScrolling.
  destruct (scroll (activities_of config)) as [s |]; [| by apply returns_ret].
  destruct (scroll_enabled s); [| by apply returns_ret].
  eapply returns_mono.
  { eapply returns_seq; [apply returns_randomInt |]. intros count w1.
    eapply returns_seq; [apply returns_generateScrollPattern |].
    intros pattern w2. apply returns_executeScrollPattern. }
  cbv beta.
  intros [] ws cs
    (count & ws1 & cs1 & ws2 & cs2 & -> & -> & (-> & -> & Hcount)
     & pattern & ws3 & cs3 & ws4 & cs4 & -> & ->
     & (-> & -> & rounds & -> & Hlen & Hall) & -> & ->).
  split; [done |]. exists rounds. split; [done |]. split; [| done].
  by exists count.
Qed.

Lemma watch_loop_returns (v : VideoWatchSettings) (h : HumanizationSettings)
    (n : nat) :
  forall w,
    returns (watch_loop v h n) w
      (fun _ ws cs =>
         cs = []
         /\ exists chunks,
             ws = concat chunks /\ length chunks = n
             /\ Forall (video_waits v) chunks).
Proof.
  induction n as [| n IH]; intros w.
  - apply returns_ret. split; [done |]. by exists [].
  - cbn [watch_loop]. eapply returns_mono.
    { eapply returns_seq; [apply returns_randomInt |]. intros watchTime w0.
      eapply returns_seq; [apply returns_randomDelay |]. intros ? w1.
      eapply returns_seq; [apply returns_shouldPerformAction |]. intros next w2.
      eapply returns_seq;
        [apply returns_when_sp, returns_randomDelay |]. intros ? w3.
      eapply returns_seq; [apply returns_shouldPerformAction |]. intros like w4.
      eapply returns_seq;
        [apply returns_when_sp, returns_randomDelay |]. intros ? w5.
      eapply returns_seq; [apply returns_shouldPerformAction |]. intros pause w6.
      eapply returns_seq;
        [apply returns_when_sp, returns_drawn_wait |]. intros ? w7.
      apply IH. }
    cbv beta.
    intros [] ws cs
      (watchTime & ws0 & cs0 & ws0' & cs0' & -> & -> & (-> & -> & Hwt)
       & [] & ws1 & cs1 & ws1' & cs1' & -> & -> & (-> & d & -> & Hd)
       & next & ws2 & cs2 & ws2' & cs2' & -> & -> & (-> & ->)
       & [] & ws3 & cs3 & ws3' & cs3' & -> & -> & Hnext
       & like & ws4 & cs4 & ws4' & cs4' & -> & -> & (-> & ->)
       & [] & ws5 & cs5 & ws5' & cs5' & -> & -> & Hlike
       & pause & ws6 & cs6 & ws6' & cs6' & -> & -> & (-> & ->)
       & [] & ws7 & cs7 & ws7' & cs7' & -> & -> & Hpause
       & -> & chunks & -> & Hlen & Hall).
    assert (H3 : cs3 = [] /\ (length ws3 <= 1)%nat).
    { destruct next; [destruct Hnext as (-> & ? & -> & _) | destruct Hnext as [-> ->]];
        (split; [done | simpl; lia]). }
    assert (H5 : cs5 = [] /\ (length ws5 <= 1)%nat).
    { destruct like; [destruct Hlike as (-> & ? & -> & _) | destruct Hlike as [-> ->]];
        (split; [done | simpl; lia]). }
    assert (H7 : cs7 = [] /\ (length ws7 <= 1)%nat).
    { destruct pause; [destruct Hpause as (-> & ? & -> & _) | destruct Hpause as [-> ->]];
        (split; [done | simpl; lia]). }
    destruct H3 as [-> H3], H5 as [-> H5], H7 as [-> H7].
    split; [done |].
    exists ((d :: ws3 ++ ws5 ++ ws7) :: chunks).
    split; [| split].
    + simpl. rewrite <- !app_assoc. reflexivity.
    + simpl. by rewrite Hlen.
    + constructor; [| done]. exists d, (ws3 ++ ws5 ++ ws7).
      split; [done |]. split; [rewrite !length_app; lia |].
      intros Hle. specialize (Hwt Hle). lia.
Qed.


Lemma performVideoWatching_returns (config : WarmingConfig) client w :
  returns (performVideoWatching config client) w
    (fun _ ws cs =>
       match videoWatch (activities_of config) with
       | Some v =>
           if videoWatch_enabled v
           then
             cs = [GetFeed (username client)]
             /\ exists chunks,
                 ws = concat chunks
                 /\ count_between (or_default (minVideos v) 3)
                                  (or_default (maxVideos v) 10) (length chunks)
                 /\ Forall (video_waits v) chunks
           else ws = [] /\ cs = []
       | None => ws = [] /\ cs = []
       end).
Proof.
  unfold performVideoWatching.
  destruct (videoWatch (activities_of config)) as [v |]; [| by apply returns_ret].
  destruct (videoWatch_enabled v); [| by apply returns_ret].
  eapply returns_mono.
  { eapply returns_seq; [apply returns_randomInt |]. intros count w1.
    eapply returns_seq; [apply returns_getFeed_swallowed |]. intros ? w2.
    apply watch_loop_returns. }
  cbv beta.
  intros [] ws cs
    (count & ws1 & cs1 & ws2 & cs2 & -> & -> & (-> & -> & Hcount)
     & [] & ws3 & cs3 & ws4 & cs4 & -> & -> & (-> & ->)
     & -> & chunks & -> & Hlen & Hall).
  split; [done |]. exists chunks. split; [done |]. split; [| done].
  by exists count.
Qed.

Lemma search_loop_returns (h : HumanizationSettings) client
    (queries : list string) (searchCount : Z) (n : nat) :
  forall i w,
    returns (search_loop h client queries searchCount n i) w
      (fun _ ws cs =>
         exists qs chunks,
           cs = Search (username client) <$> qs /\ length qs = n
           /\ Forall (query_from queries) qs
           /\ ws = concat chunks /\ length chunks = n
           /\ Forall (search_waits h) chunks
           /\ (searchCount = Z.of_nat (i + n) -> length ws = (3 * n - 1)%nat)).
Proof.
  induction n as [| n IH]; intros i w.
  - apply returns_ret. by exists [], [].
  - cbn [search_loop]. eapply returns_mono.
    { eapply returns_seq; [apply returns_randomChoice |]. intros query w1.
      eapply returns_seq; [apply returns_search_swallowed |]. intros ? w2.
      eapply returns_seq; [apply returns_randomDelay |]. intros ? w3.
      eapply returns_seq; [apply returns_randomInt |]. intros browseTime w4.
      eapply returns_seq; [apply returns_randomDelay |]. intros ? w5.
      eapply returns_seq; [apply returns_when_sp, returns_randomDelay |].
      intros ? w6. apply (IH (S i)). }
    cbv beta.
    intros [] ws cs
      (query & ws1 & cs1 & ws1' & cs1' & -> & -> & (-> & -> & Hquery)
       & [] & ws2 & cs2 & ws2' & cs2' & -> & -> & (-> & ->)
       & [] & ws3 & cs3 & ws3' & cs3' & -> & -> & (-> & t & -> & Ht)
       & browseTime & ws4 & cs4 & ws4' & cs4' & -> & -> & (-> & -> & Hbt)
       & [] & ws5 & cs5 & ws5' & cs5' & -> & -> & (-> & b & -> & Hb)
       & [] & ws6 & cs6 & ws6' & cs6' & -> & -> & Hgap
       & qs & chunks & -> & Hqs & Hfrom & -> & Hlen & Hall & Hcount).
    specialize (Hbt ltac:(lia)). specialize (Hb ltac:(lia)).
    assert (Hg : cs6 = [] /\ (length ws6 <= 1)%nat
                 /\ (searchCount = Z.of_nat (i + S n) ->
                     length ws6 = if (n =? 0)%nat then 0%nat else 1%nat)).
    { destruct (Z.ltb_spec (Z.of_nat i) (searchCount - 1)) as [Hlt | Hge].
      - destruct Hgap as (-> & g & -> & _). split; [done |].
        split; [simpl; lia |]. intros ->.
        destruct (Nat.eqb_spec n 0); [lia | done].
      - destruct Hgap as [-> ->]. split; [done |]. split; [simpl; lia |].
        intros ->. destruct (Nat.eqb_spec n 0); [done | lia]. }
    destruct Hg as (-> & Hg1 & Hg2).
    exists (query :: qs), ((t :: b :: ws6) :: chunks).
    split; [done |]. split; [simpl; by rewrite Hqs |].
    split; [by constructor |].
    split; [simpl; by rewrite <- ?app_assoc |].
    split; [simpl; by rewrite Hlen |].
    split.
    + constructor; [| done]. exists t, b, ws6.
      split; [done |]. split; [done |]. split; [lia | done].
    + intros Hsc. specialize (Hg2 Hsc).
      rewrite Hsc in Hcount.
      specialize (Hcount ltac:(f_equal; lia)).
      simpl. rewrite !length_app, Hcount, Hg2. simpl.
      destruct (Nat.eqb_spec n 0); lia.
Qed.


Lemma performSearch_returns (config : WarmingConfig) client w :
  returns (performSearch config client) w
    (fun _ ws cs =>
       match search (activities_of config) with
       | Some s =>
           if search_enabled s
           then
             exists qs chunks,
               cs = Search (username client) <$> qs
               /\ count_between (or_default (minSearches s) 1)
                                (or_default (maxSearches s) 3) (length qs)
               /\ Forall (query_from (queries_of s)) qs
               /\ ws = concat chunks /\ length chunks = length qs
               /\ Forall (search_waits (humanization_of config)) chunks
               /\ length ws = (3 * length qs - 1)%nat
           else ws = [] /\ cs = []
       | None => ws = [] /\ cs = []
       end).
Proof.
  unfold performSearch.
  destruct (search (activities_of config)) as [s |]; [| by apply returns_ret].
  destruct (search_enabled s); [| by apply returns_ret].
  eapply returns_mono.
  { eapply returns_seq; [apply returns_randomInt |]. intros count w1.
    apply search_loop_returns. }
  cbv beta.
  intros [] ws cs
    (count & ws1 & cs1 & ws2 & cs2 & -> & -> & (-> & -> & Hcount)
     & qs & chunks & -> & Hqs & Hfrom & -> & Hlen & Hall & Hws).
  exists qs, chunks. split; [done |].
  split; [exists count; by rewrite Hqs |]. split; [done |].
  split; [done |]. split; [congruence |]. split; [done |].
  rewrite Hqs. simpl. destruct (Z.le_gt_cases 0 count) as [Hpos | Hneg].
  - apply Hws. simpl. lia.
  - assert (Hz : Z.to_nat count = 0%nat) by lia.
    rewrite Hz in *. destruct chunks; [done | discriminate Hlen].
Qed.

Lemma performWarmingSession_returns (config : WarmingConfig) client w :
  returns (performWarmingSession config client) w
    (fun _ ws cs => session_outcome config client ws cs).
Proof.
  unfold performWarmingSession. apply returns_try.
  eapply returns_mono.
  { eapply returns_seq; [apply returns_randomDelay |]. intros ? w1.
    eapply returns_seq; [apply performScrolling_returns |]. intros ? w2.
    eapply returns_seq; [apply returns_randomDelay |]. intros ? w3.
    eapply returns_seq; [apply performVideoWatching_returns |]. intros ? w4.
    eapply returns_seq; [apply returns_randomDelay |]. intros ? w5.
    apply performSearch_returns. }
  cbv beta.
  intros [] ws cs
    ([] & ws1 & cs1 & ws1' & cs1' & -> & -> & (-> & d1 & -> & Hd1)
     & [] & ws2 & cs2 & ws2' & cs2' & -> & -> & (-> & Hscroll)
     & [] & ws3 & cs3 & ws3' & cs3' & -> & -> & (-> & d2 & -> & Hd2)
     & [] & ws4 & cs4 & ws4' & cs4' & -> & -> & Hwatch
     & [] & ws5 & cs5 & ws5' & cs5' & -> & -> & (-> & d3 & -> & Hd3)
     & Hsearch).
  exists d1, ws2, d2, ws4, cs4, d3, ws5', cs5'.
  split; [simpl; by rewrite <- ?app_assoc |].
  split; [done |]. split; [done |].
  split; [apply Hd2; lia |]. split; [apply Hd3; lia |]. done.
Qed.

Lemma push_run (entry : InteractionModule.result Response) w :
  push entry w =
    (Normal tt,
     World (heap w) (random w) (cursor w) (trace w)
           (WarmLocals (calls (locals w)) (results (locals w) ++ [entry]))).
Proof. reflexivity. Qed.

(** One account of [massWarmAccounts]: the session never throws, so the
    entry pushed is always the successful one. *)
Lemma warm_session_run (config : WarmingConfig) (n i : nat) client w :
  exists w' ws cs,
    warm_session config n i client w = (Normal tt, w')
    /\ heap w' = heap w /\ random w' = random w
    /\ trace w' = trace w ++ (Wait <$> ws)
    /\ calls (locals w') = calls (locals w) ++ cs
    /\ results (locals w')
       = results (locals w)
         ++ [InteractionModule.Result (username client) true None None None]
    /\ account_waits config client (negb (Z.of_nat i <? Z.of_nat n - 1)) ws cs.
Proof.
  destruct (performWarmingSession_returns config client w)
    as ([] & w1 & ws1 & cs1 & Hrun1 & Hadv1 & Hsession).
  set (w2 := World (heap w1) (random w1) (cursor w1) (trace w1)
               (WarmLocals (calls (locals w1))
                  (results (locals w1)
                   ++ [InteractionModule.Result (username client) true None
                                                None None]))).
  destruct (returns_when_sp (Z.of_nat i <? Z.of_nat n - 1)
              (let! delay := randomInt 10000 30000 in
               randomDelay delay (delay + 1000)) w2 _
              (returns_drawn_wait 10000 30000 1000 w2))
    as ([] & w3 & ws3 & cs3 & Hrun3 & Hadv3 & Hgap).
  destruct Hadv1 as (Hh1 & Hr1 & _ & Ht1 & Hc1 & Hs1).
  destruct Hadv3 as (Hh3 & Hr3 & _ & Ht3 & Hc3 & Hs3).
  exists w3, (ws1 ++ ws3), (cs1 ++ cs3).
  split; [| split; [| split; [| split; [| split; [| split]]]]].
  - unfold warm_session, try_catch. unfold bind at 1. rewrite Hrun1.
    unfold bind at 1. rewrite push_run. fold w2. by rewrite Hrun3.
  - by rewrite Hh3, <- Hh1.
  - by rewrite Hr3, <- Hr1.
  - by rewrite Ht3, fmap_app, app_assoc, <- Ht1.
  - by rewrite Hc3, app_assoc, <- Hc1.
  - by rewrite Hs3, <- Hs1.
  - destruct (Z.of_nat i <? Z.of_nat n - 1); simpl.
    + destruct Hgap as (-> & d & -> & Hd). rewrite app_nil_r.
      exists ws1, [d]. split; [done |]. split; [done |].
      exists d. split; [done |]. apply Hd; lia.
    + destruct Hgap as [-> ->]. rewrite !app_nil_r.
      exists ws1, []. rewrite app_nil_r. by repeat split.
Qed.

Lemma warm_loop_run (config : WarmingConfig) (n : nat) :
  forall (rest : list (WarmClient Response)) i w,
    exists w' chunks cs,
      warm_loop config n i rest w = (Normal tt, w')
      /\ heap w' = heap w /\ random w' = random w
      /\ trace w' = trace w ++ (Wait <$> concat chunks)
      /\ calls (locals w') = calls (locals w) ++ concat cs
      /\ results (locals w')
         = results (locals w)
           ++ ((fun c => InteractionModule.Result (username c) true None None None)
                 <$> rest)
      /\ length chunks = length rest /\ length cs = length rest
      /\ forall j c, rest !! j = Some c ->
           exists ws calls_j,
             chunks !! j = Some ws /\ cs !! j = Some calls_j
             /\ account_waits config c
                   (negb (Z.of_nat (i + j) <? Z.of_nat n - 1)) ws calls_j.
Proof.
  induction rest as [| c rest IH]; intros i w.
  - exists w, [], []. simpl. rewrite !app_nil_r.
    repeat split; try done; intros j c Hj; discriminate Hj.
  - destruct (warm_session_run config n i c w)
      as (w1 & ws & calls1 & Hrun & Hh & Hr & Ht & Hc & Hs & Hacc).
    destruct (IH (S i) w1)
      as (w2 & chunks & cs & Hloop & Hh2 & Hr2 & Ht2 & Hc2 & Hs2 & Hl1 & Hl2 & Hall).
    exists w2, (ws :: chunks), (calls1 :: cs).
    split; [| split; [| split; [| split; [| split; [| split; [| split; [| split]]]]]]].
    + cbn [warm_loop]. unfold bind. by rewrite Hrun.
    + by rewrite Hh2.
    + by rewrite Hr2.
    + rewrite Ht2, Ht. simpl. by rewrite fmap_app, app_assoc.
    + rewrite Hc2, Hc. simpl. by rewrite app_assoc.
    + rewrite Hs2, Hs. simpl. by rewrite <- app_assoc.
    + simpl. by rewrite Hl1.
    + simpl. by rewrite Hl2.
    + intros [| j] c' Hj; simpl in Hj.
      * injection Hj as <-. exists ws, calls1. rewrite Nat.add_0_r. by repeat split.
      * destruct (Hall j c' Hj) as (ws' & calls' & ? & ? & ?).
        exists ws', calls'. rewrite Nat.add_succ_r. by repeat split.
Qed.





(** X19: [massWarmAccounts] never throws and reports every account as a
    success, in the order of the clients, whatever the clients' calls do:
    their failures are swallowed inside the activities.  Each account's
    session is followed by a wait of 10 to 31 seconds, except the last. *)
Theorem massWarmAccounts_reports_all_successful
    (clients : list (WarmClient Response)) (config : WarmingConfig) w :
  exists w' chunks cs,
    massWarmAccounts clients config w =
      (Normal ((fun c => InteractionModule.Result (username c) true None None None)
                 <$> clients), w')
    /\ heap w' = heap w
    /\ trace w' = trace w ++ (Wait <$> concat chunks)
    /\ calls (locals w') = calls (locals w) ++ concat cs
    /\ length chunks = length clients /\ length cs = length clients
    /\ forall j c, clients !! j = Some c ->
         exists ws calls_j,
           chunks !! j = Some ws /\ cs !! j = Some calls_j
           /\ account_waits config c
                 (negb (Z.of_nat j <? Z.of_nat (length clients) - 1))
                 ws calls_j.
Proof.
  set (w0 := World (heap w) (random w) (cursor w) (trace w)
               (WarmLocals (calls (locals w)) [])
             : world string (warm_locals Response)).
  destruct (warm_loop_run config (length clients) clients 0 w0)
    as (w' & chunks & cs & Hloop & Hh & Hr & Ht & Hc & Hs & Hl1 & Hl2 & Hall).
  exists w', chunks, cs.
  split; [| by repeat split].
  unfold massWarmAccounts. unfold bind at 1. unfold bind at 1.
  unfold get_locals at 1. unfold set_locals at 1. fold w0.
  unfold bind at 1. rewrite Hloop.
  unfold bind, get_locals, ret. by rewrite Hs.
Qed.

(** X20: [performRandomActivity] does nothing, and draws nothing, when no
    activity is on; otherwise it makes one draw and then behaves exactly as
    one of the three activities, and that activity is on. *)
Theorem performRandomActivity_runs_one_enabled (config : WarmingConfig)
    client w :
  if is_enabled_scroll config || is_enabled_videoWatch config
     || is_enabled_search config
  then
    (is_enabled_scroll config = true
     /\ performRandomActivity config client w
        = performScrolling config
            (World (heap w) (random w) (S (cursor w)) (trace w) (locals w)))
    \/ (is_enabled_videoWatch config = true
        /\ performRandomActivity config client w
           = performVideoWatching config client
               (World (heap w) (random w) (S (cursor w)) (trace w) (locals w)))
    \/ (is_enabled_search config = true
        /\ performRandomActivity config client w
           = performSearch config client
               (World (heap w) (random w) (S (cursor w)) (trace w) (locals w)))
  else performRandomActivity config client w = (Normal tt, w).
Proof.
  assert (Hpick : forall available : list string,
            available <> [] ->
            exists a,
              a ∈ available
              /\ randomChoice (L := warm_locals Response) available w =
                   (Normal (Some a),
                    World (heap w) (random w) (S (cursor w)) (trace w)
                          (locals w))).
  { intros available Hne.
    destruct (index_in_range available
                (Math_floor (random w (cursor w)
                             * inject_Z (Z.of_nat (length available)))))
      as (a & Ha & Hin).
    { apply floor_scaled_range. destruct available; [done | simpl; lia]. }
    exists a. split; [done |].
    unfold randomChoice, bind, ret. by rewrite Math_random_run, Ha. }
  unfold performRandomActivity.
  destruct (is_enabled_scroll config) eqn:Hs,
           (is_enabled_videoWatch config) eqn:Hv,
           (is_enabled_search config) eqn:Hq; cbn [orb app length Nat.eqb];
    try reflexivity;
    match goal with
    | |- context [randomChoice ?l] =>
        destruct (Hpick l ltac:(discriminate)) as (a & Hin & Hrun)
    end;
    unfold bind; rewrite Hrun;
    repeat (apply elem_of_cons in Hin as [-> | Hin]);
    try (by apply elem_of_nil in Hin);
    cbn; auto.
Qed.

End Facts.

End WarmingFacts.

Module AccountWarmerFacts.

Import JSFacts Humanization HumanizationFacts AccountManager AccountManagerFacts
       AccountManagerMore AccountManagerMoreFacts AccountWarmer.

(** X21: [initialize] throws [No valid accounts found...] exactly when no
    stored account passes [validateAccount].  Otherwise it makes one client
    per valid account, in the stored order; each client's session id is the
    [sessionId] of its account, so the cookie fallback of the constructor is
    never taken, and its session id and user agent are truthy.  The stored
    accounts are not changed. *)
Theorem initialize_one_client_per_valid_account (m : manager) :
  match (initialize m).1 with
  | Throw e =>
      message e = "No valid accounts found. Please check your config.json"%string
      /\ forall acc, acc ∈ accounts m -> (validateAccount acc).1 = false
  | Normal clients =>
      clients <> []
      /\ client_account <$> clients = (getValidAccounts m).1
      /\ forall c, c ∈ clients ->
           client_sessionId_field c = client_account c !! "sessionId"
           /\ truthy (client_sessionId_field c) = true
           /\ truthy (client_userAgent c) = true
  end
  /\ accounts (initialize m).2 = accounts m.
Proof.
  unfold initialize.
  pose proof (getValidAccounts_result m) as Hres.
  pose proof (getValidAccounts_store m) as [Hstore _].
  destruct (getValidAccounts m) as [valid m'] eqn:Hget. simpl in Hres, Hstore.
  destruct valid as [| acc valid]; simpl.
  - split; [| done]. split; [done |].
    intros acc Hin. destruct (validateAccount acc).1 eqn:Hv; [| done].
    assert (Hin' : acc ∈ filter (fun a => (validateAccount a).1 = true) (accounts m))
      by (by apply list_elem_of_filter).
    rewrite <- Hres in Hin'. by apply elem_of_nil in Hin'.
  - split; [| done]. split; [done |]. split.
    + rewrite <- list_fmap_compose. simpl. f_equal.
      by rewrite list_fmap_id.
    + intros c Hc.
      assert (Hc' : c ∈ new_TikTokClient <$> (acc :: valid)) by done.
      apply list_elem_of_fmap in Hc' as (a & -> & Ha).
      assert (Hvalid : (validateAccount a).1 = true).
      { rewrite Hres in Ha. by apply list_elem_of_filter in Ha as [? _]. }
      apply validateAccount_true_iff in Hvalid as (_ & Hsid & Hua).
      unfold new_TikTokClient; simpl. unfold client_sessionId.
      rewrite Hsid. by repeat split.
Qed.






Section Facts.
Context {E L R : Type}.
Variable massWarmAccounts massUpdateProfiles massComment massLikeComment
  : json -> M E L R.
Implicit Types (w : world E L).





Lemma try_rethrow {A : Type} (body : M E L A) w :
  try_catch body (fun error => raise error) w = body w.
Proof. unfold try_catch, raise. by destruct (body w) as [[v | e] w']. Qed.


(** X23: when no feature is on, and in particular before the configuration
    is loaded, [runAll] returns a summary of four [null] and does nothing:
    no mass operation is started, nothing is waited for, nothing is drawn. *)
Theorem runAll_nothing_enabled (config : option json) w :
  feature_on config "warming" None = false ->
  feature_on config "profile" None = false ->
  feature_on config "massActions" (Some "commenting"%string) = false ->
  feature_on config "massActions" (Some "commentLiking"%string) = false ->
  runAll massWarmAccounts massUpdateProfiles massComment massLikeComment
         config w
  = (Normal (Summary Null Null Null Null), w).
Proof.
  intros H1 H2 H3 H4. unfold runAll. rewrite try_rethrow, H1, H2, H3, H4.
  reflexivity.
Qed.

End Facts.

(** Witness of [runAll_nothing_enabled]: a configuration with an empty
    [warming] section and nothing else. *)
Lemma runAll_nothing_enabled_witness :
  feature_on MoreExamples.idle_config "warming" None = false
  /\ feature_on MoreExamples.idle_config "profile" None = false
  /\ feature_on MoreExamples.idle_config "massActions"
                (Some "commenting"%string) = false
  /\ feature_on MoreExamples.idle_config "massActions"
                (Some "commentLiking"%string) = false
  /\ runAll MoreExamples.failing_phase MoreExamples.failing_phase
            MoreExamples.failing_phase MoreExamples.failing_phase
            MoreExamples.idle_config Examples.empty_world
     = (Normal (Summary Null Null Null Null), Examples.empty_world).
Proof.
  split; [reflexivity |]. split; [reflexivity |]. split; [reflexivity |].
  split; [reflexivity |].
  apply (runAll_nothing_enabled MoreExamples.failing_phase
           MoreExamples.failing_phase MoreExamples.failing_phase
           MoreExamples.failing_phase MoreExamples.idle_config
           Examples.empty_world);
    reflexivity.
Defined.

End AccountWarmerFacts.

Module ProfileFacts.

Import JSFacts HumanizationFacts Humanization InteractionModule ProfileManager.

Section Facts.

Context {Response Data : Type}.
Variable readFile : string -> completion Data.
Variable loadAvatars : list string.
Variable loadBios : list string.

Local Abbreviation Client := (ProfileClient Response Data).
Local Abbreviation Run := (M string (profile_locals Response)).

Lemma step_delay_range (r : unit_draw) :
  2000 <= Math_floor (r * inject_Z (5000 - 2000 + 1)) + 2000 <= 5000.
Proof. apply pick_in_range. lia. Qed.

(** [choose] draws only when there is something to choose from. *)
Lemma choose_run (xs : list string) (w : world string (profile_locals Response)) :
  exists x c,
    choose xs w = (Normal x, World (heap w) (random w) c (trace w) (locals w))
    /\ picked_from xs x.
Proof.
  destruct xs as [| s rest].
  - exists None, (cursor w). split; [by destruct w | done].
  - unfold choose. cbn [length Nat.ltb Nat.leb].
    destruct (index_in_range (s :: rest)
                (Math_floor (random w (cursor w)
                             * inject_Z (Z.of_nat (length (s :: rest))))))
      as (x & Hx & Hin).
    { apply floor_scaled_range. simpl. lia. }
    exists (Some x), (S (cursor w)). split; [| by exists x].
    unfold randomChoice, bind. rewrite Math_random_run.
    unfold ret. cbn [heap random cursor trace locals]. by rewrite Hx.
Qed.

Local Ltac run_steps :=
  cbv [updateProfile update_avatar update_bio try_catch bind ret raise await
       log_call get_locals set_locals randomDelay Math_random setTimeout emit
       heap random cursor trace locals calls results].

Local Tactic Notation "close_steps" uconstr(steps) :=
  refine (ex_intro _ steps _); eexists; split; [reflexivity |];
  cbn [heap random cursor trace locals calls results raises negb andb
       length Nat.add fmap list_fmap];
  rewrite <- ?app_assoc, ?app_nil_r;
  repeat split; try done;
  repeat (apply Forall_cons; split; [apply step_delay_range |]);
  apply Forall_nil_2.

(** One account's update: its outcome is that of its unit of work, every
    step it starts is preceded by one wait of two to five seconds, and the
    result list is not touched. *)
Lemma updateProfile_run (config : ProfileConfig) (client : Client)
    (a b : option string) (w : world string (profile_locals Response)) :
  exists steps w',
    updateProfile readFile config client a b w
    = (profile_work readFile config client a b, w')
    /\ heap w' = heap w /\ random w' = random w
    /\ trace w' = trace w ++ (Wait <$> steps)
    /\ calls (locals w')
       = calls (locals w) ++ profile_calls readFile config client a b
    /\ results (locals w') = results (locals w)
    /\ length steps = steps_started readFile config client a b
    /\ Forall (fun d => 2000 <= d <= 5000) steps.
Proof.
  unfold profile_work, profile_calls, steps_started, avatar_fails, avatar_work.
  destruct a as [p |], b as [t |]; cbn [wants_avatar wants_bio].
  - destruct (updateAvatar config && negb (String.eqb p "")) eqn:Ha,
             (updateBio config && negb (String.eqb t "")) eqn:Hb;
      run_steps; rewrite ?Ha, ?Hb.
    + destruct (readFile p) as [data | e]; [| close_steps [_]].
      destruct (client_uploadAvatar client data) as [r | e];
        [| close_steps [_]].
      destruct (client_updateProfile client t) as [r' | e];
        close_steps [_; _].
    + destruct (readFile p) as [data | e]; [| close_steps [_]].
      destruct (client_uploadAvatar client data) as [r | e];
        close_steps [_].
    + destruct (client_updateProfile client t) as [r' | e];
        close_steps [_].
    + close_steps (@nil Z).
  - destruct (updateAvatar config && negb (String.eqb p "")) eqn:Ha;
      run_steps; rewrite ?Ha.
    + destruct (readFile p) as [data | e]; [| close_steps [_]].
      destruct (client_uploadAvatar client data) as [r | e];
        close_steps [_].
    + close_steps (@nil Z).
  - destruct (updateBio config && negb (String.eqb t "")) eqn:Hb;
      run_steps; rewrite ?Hb.
    + destruct (client_updateProfile client t) as [r' | e];
        close_steps [_].
    + close_steps (@nil Z).
  - run_steps. close_steps (@nil Z).
Qed.

Lemma profile_delay_run (lo hi : Z) (w : world string (profile_locals Response)) :
  randomDelay lo hi w =
    (Normal tt,
     World (heap w) (random w) (S (cursor w))
           (trace w ++ [Wait (Math_floor (random w (cursor w)
                                          * inject_Z (hi - lo + 1)) + lo)])
           (locals w)).
Proof. reflexivity. Qed.

Lemma profile_push_run (entry : result (profile_result (Response := Response)))
    (w : world string (profile_locals Response)) :
  ProfileManager.push entry w =
    (Normal tt,
     World (heap w) (random w) (cursor w) (trace w)
           (ProfileLocals (calls (locals w)) (results (locals w) ++ [entry]))).
Proof. reflexivity. Qed.

Local Ltac settle :=
  cbn [heap random cursor trace locals calls results];
  repeat match goal with
         | H : heap _ = _ |- _ => rewrite H; clear H
         | H : random _ = _ |- _ => rewrite H; clear H
         | H : trace _ = _ |- _ => rewrite H; clear H
         | H : calls _ = _ |- _ => rewrite H; clear H
         | H : results _ = _ |- _ => rewrite H; clear H
         end;
  repeat match goal with w := World _ _ _ _ _ |- _ => subst w end;
  cbn [heap random cursor trace locals calls results];
  rewrite <- ?app_assoc.

(** One turn of the loop of [massUpdateProfiles]: it never throws, pushes
    the entry of the unit of work, and waits before the next account only
    after a success. *)
Lemma profile_session_run (config : ProfileConfig) (avatars bios : list string)
    (n i : nat) (client : Client) (w : world string (profile_locals Response)) :
  exists a b steps gap w',
    profile_session readFile config avatars bios n i client w = (Normal tt, w')
    /\ picked_from avatars a /\ picked_from bios b
    /\ heap w' = heap w /\ random w' = random w
    /\ trace w' = trace w ++ ((Wait <$> steps) ++ gap)
    /\ calls (locals w')
       = calls (locals w) ++ profile_calls readFile config client a b
    /\ results (locals w')
       = results (locals w)
         ++ [profile_entry client (profile_work readFile config client a b)]
    /\ length steps = steps_started readFile config client a b
    /\ Forall (fun d => 2000 <= d <= 5000) steps
    /\ gap_between (raises (profile_work readFile config client a b))
                   (is_last n i)
                   (or_default (delayBetweenAccountsMin config) 5000)
                   (or_default (delayBetweenAccountsMax config) 15000)
                   gap.
Proof.
  destruct (choose_run avatars w) as (a & c1 & Ha & Hpa).
  set (w1 := World (heap w) (random w) c1 (trace w) (locals w)) in Ha.
  destruct (choose_run bios w1) as (b & c2 & Hb & Hpb).
  set (w2 := World (heap w1) (random w1) c2 (trace w1) (locals w1)) in Hb.
  destruct (updateProfile_run config client a b w2)
    as (steps & w3 & Hrun & Hheap & Hrandom & Htrace & Hcalls & Hresults
        & Hlen & Hsteps).
  exists a, b, steps.
  unfold profile_session, try_catch. unfold bind at 1. rewrite Ha.
  unfold bind at 1. rewrite Hb. unfold bind at 1. rewrite Hrun.
  unfold gap_between, is_last.
  destruct (profile_work readFile config client a b) as [r | e];
    cbn [raises orb profile_entry].
  - unfold bind at 1. rewrite profile_push_run.
    destruct (Z.of_nat i <? Z.of_nat n - 1) eqn:Hmore; cbn [negb].
    + rewrite profile_delay_run. eexists [_]. eexists.
      split; [reflexivity |]. settle.
      repeat split; try done.
      eexists; split; [reflexivity |]. apply pick_in_range.
    + exists []. eexists. split; [reflexivity |]. settle.
      by rewrite app_nil_r.
  - rewrite profile_push_run. exists []. eexists. split; [reflexivity |].
    settle. by rewrite app_nil_r.
Qed.

(** The loop of [massUpdateProfiles] from index [i] on. *)
Lemma profile_loop_run (config : ProfileConfig) (avatars bios : list string)
    (n : nat) (rest : list Client) :
  forall (i : nat) (w : world string (profile_locals Response)),
  exists (picks : list (option string * option string))
         (chunks : list (list event)) w',
    profile_loop readFile config avatars bios n i rest w = (Normal tt, w')
    /\ heap w' = heap w /\ random w' = random w
    /\ length picks = length rest /\ length chunks = length rest
    /\ Forall (fun p => picked_from avatars p.1 /\ picked_from bios p.2) picks
    /\ trace w' = trace w ++ concat chunks
    /\ calls (locals w')
       = calls (locals w)
         ++ concat (zip_with (fun c p => profile_calls readFile config c p.1 p.2)
                             rest picks)
    /\ results (locals w')
       = results (locals w)
         ++ zip_with (fun c p => profile_entry c
                                   (profile_work readFile config c p.1 p.2))
                     rest picks
    /\ forall j c p, rest !! j = Some c -> picks !! j = Some p ->
         exists steps gap,
           chunks !! j = Some ((Wait <$> steps) ++ gap)
           /\ length steps = steps_started readFile config c p.1 p.2
           /\ Forall (fun d => 2000 <= d <= 5000) steps
           /\ gap_between (raises (profile_work readFile config c p.1 p.2))
                          (is_last n (i + j))
                          (or_default (delayBetweenAccountsMin config) 5000)
                          (or_default (delayBetweenAccountsMax config) 15000)
                          gap.
Proof.
  induction rest as [| client rest' IH]; intros i w.
  - exists [], [], w. cbn [profile_loop zip_with concat length].
    rewrite !app_nil_r. repeat split; try done.
  - destruct (profile_session_run config avatars bios n i client w)
      as (a & b & steps & gap & w1 & Hrun & Hpa & Hpb & Hheap & Hrandom
          & Htrace & Hcalls & Hresults & Hlen & Hsteps & Hgap).
    destruct (IH (S i) w1)
      as (picks & chunks & w' & Hloop & Hheap' & Hrandom' & Hlp & Hlc & Hpicks
          & Htrace' & Hcalls' & Hresults' & Hchunks).
    exists ((a, b) :: picks), (((Wait <$> steps) ++ gap) :: chunks), w'.
    cbn [profile_loop]. unfold bind at 1. rewrite Hrun.
    split; [exact Hloop |].
    split; [congruence |]. split; [congruence |].
    split; [simpl; congruence |]. split; [simpl; congruence |].
    split; [by apply Forall_cons |].
    split; [rewrite Htrace', Htrace; cbn [concat]; by rewrite <- !app_assoc |].
    split; [rewrite Hcalls', Hcalls; cbn [zip_with concat fst snd];
            by rewrite <- !app_assoc |].
    split; [rewrite Hresults', Hresults; cbn [zip_with fst snd];
            by rewrite <- !app_assoc |].
    intros [| j] c p Hc Hp.
    + injection Hc as <-. injection Hp as <-. rewrite Nat.add_0_r.
      by exists steps, gap.
    + replace (i + S j)%nat with (S i + j)%nat by lia.
      by apply Hchunks.
Qed.

Lemma massUpdateProfiles_run (clients : list Client) (config : ProfileConfig)
    (w : world string (profile_locals Response)) :
  massUpdateProfiles readFile loadAvatars loadBios clients config w
  = match profile_loop readFile config
            (if updateAvatar config then loadAvatars else [])
            (if updateBio config then loadBios else [])
            (length clients) 0 clients
            (World (heap w) (random w) (cursor w) (trace w)
                   (ProfileLocals (calls (locals w)) []))
    with
    | (Normal _, w') => (Normal (results (locals w')), w')
    | (Throw e, w') => (Throw e, w')
    end.
Proof. reflexivity. Qed.

Lemma zip_with_related {A B C : Type} (f : A -> B -> C) (Q : B -> Prop)
    (R : A -> C -> Prop) (xs : list A) :
  (forall x y, Q y -> R x (f x y)) ->
  forall ys, length ys = length xs -> Forall Q ys ->
             Forall2 R xs (zip_with f xs ys).
Proof.
  intros Hf. induction xs as [| x xs IH]; intros [| y ys] Hlen Hys;
    try discriminate; [constructor |].
  apply Forall_cons in Hys as [Hy Hys]. cbn [zip_with].
  constructor; [by apply Hf | apply IH; [by injection Hlen | done]].
Qed.

Lemma concat_zip_singletons {A B C D : Type} (g : A -> B -> list C)
    (h : D -> C) (Q : B -> Prop) (S : D -> Prop) (xs : list A) :
  (forall x y, Q y -> exists d, g x y = [h d] /\ S d) ->
  forall ys, length ys = length xs -> Forall Q ys ->
    exists ds, concat (zip_with g xs ys) = h <$> ds
               /\ length ds = length xs /\ Forall S ds.
Proof.
  intros Hg. induction xs as [| x xs IH]; intros [| y ys] Hlen Hys;
    try discriminate; [by exists [] |].
  apply Forall_cons in Hys as [Hy Hys].
  destruct (Hg x y Hy) as (d & Hd & HS).
  destruct (IH ys) as (ds & Hds & Hl & HSs); [by injection Hlen | done |].
  exists (d :: ds). cbn [zip_with concat]. rewrite Hd, Hds.
  split; [done |]. split; [simpl; congruence | by apply Forall_cons].
Qed.

Lemma concat_zip_empty {A B C : Type} (g : A -> B -> list C) (Q : B -> Prop)
    (xs : list A) :
  (forall x y, Q y -> g x y = []) ->
  forall ys, Forall Q ys -> concat (zip_with g xs ys) = [].
Proof.
  intros Hg. induction xs as [| x xs IH]; intros [| y ys] Hys; try done.
  apply Forall_cons in Hys as [Hy Hys]. cbn [zip_with concat].
  by rewrite Hg, IH.
Qed.

Lemma zip_with_map {A B C : Type} (f : A -> B -> C) (g : A -> C)
    (Q : B -> Prop) (xs : list A) :
  (forall x y, Q y -> f x y = g x) ->
  forall ys, length ys = length xs -> Forall Q ys -> zip_with f xs ys = g <$> xs.
Proof.
  intros Hf. induction xs as [| x xs IH]; intros [| y ys] Hlen Hys;
    try discriminate; [done |].
  apply Forall_cons in Hys as [Hy Hys]. cbn [zip_with fmap list_fmap].
  rewrite Hf; [| done]. f_equal. apply IH; [by injection Hlen | done].
Qed.

Lemma concat_single_waits (P : Z -> Prop) (chunks : list (list event)) :
  (forall j chunk, chunks !! j = Some chunk ->
                   exists d, chunk = [Wait d] /\ P d) ->
  exists ds, concat chunks = Wait <$> ds
             /\ length ds = length chunks /\ Forall P ds.
Proof.
  induction chunks as [| chunk chunks IH]; intros H; [by exists [] |].
  destruct (H 0%nat chunk eq_refl) as (d & -> & Hd).
  destruct IH as (ds & Hds & Hl & HP).
  { intros j ch Hj. by apply (H (S j)). }
  exists (d :: ds). cbn [concat]. rewrite Hds.
  split; [done |]. split; [simpl; congruence | by apply Forall_cons].
Qed.

(** What a pick amounts to when nothing can be picked. *)
Lemma idle_pick (config : ProfileConfig) (client : Client)
    (p : option string * option string) :
  p.1 = None /\ p.2 = None ->
  profile_work readFile config client p.1 p.2 = Normal (None, None)
  /\ profile_calls readFile config client p.1 p.2 = []
  /\ steps_started readFile config client p.1 p.2 = 0%nat.
Proof. destruct p as [a b]. simpl. by intros [-> ->]. Qed.

(** What a pick amounts to when the avatar files cannot be read. *)
Lemma unreadable_pick (config : ProfileConfig) (client : Client)
    (p : option string * option string) :
  updateAvatar config = true ->
  loadAvatars <> [] ->
  Forall (fun path => path <> ""%string /\ raises (readFile path) = true)
         loadAvatars ->
  picked_from loadAvatars p.1 ->
  exists path e,
    path ∈ loadAvatars /\ readFile path = Throw e
    /\ profile_work readFile config client p.1 p.2 = Throw e
    /\ profile_calls readFile config client p.1 p.2 = [ReadFile path]
    /\ steps_started readFile config client p.1 p.2 = 1%nat.
Proof.
  intros Hon Hne Hall Hpick. destruct p as [a b]. cbn [fst snd] in *.
  destruct loadAvatars as [| s rest] eqn:Hl; [done |].
  destruct Hpick as (path & -> & Hin).
  rewrite Forall_forall in Hall. destruct (Hall path Hin) as [Hpath Hraises].
  destruct (readFile path) as [data | e] eqn:Hread; [discriminate |].
  exists path, e. split; [done |]. split; [done |].
  apply String.eqb_neq in Hpath.
  unfold profile_work, profile_calls, steps_started, avatar_fails, avatar_work.
  cbn [wants_avatar]. rewrite Hon, Hpath, Hread. cbn [andb negb raises].
  by destruct b, (wants_bio config _).
Qed.

(** X24: [massUpdateProfiles] never throws and reports every account, in
    the order of the clients: each entry is that of the account's unit of
    work on the candidates picked for it (one of the loaded avatars and one
    of the loaded bios, [null] when a list is empty or its update is off),
    successful exactly when neither the file read, the upload nor the bio
    update threw; the calls made are those of the units of work, in order,
    so a bio is not sent after the avatar failed. *)
Theorem massUpdateProfiles_reports_every_account (clients : list Client)
    (config : ProfileConfig) (w : world string (profile_locals Response)) :
  exists (picks : list (option string * option string)) w',
    massUpdateProfiles readFile loadAvatars loadBios clients config w
    = (Normal (zip_with (fun c p => profile_entry c
                                      (profile_work readFile config c p.1 p.2))
                        clients picks), w')
    /\ length picks = length clients
    /\ Forall (fun p =>
                 picked_from (if updateAvatar config then loadAvatars else [])
                             p.1
                 /\ picked_from (if updateBio config then loadBios else [])
                                p.2) picks
    /\ calls (locals w')
       = calls (locals w)
         ++ concat (zip_with (fun c p => profile_calls readFile config c p.1 p.2)
                             clients picks)
    /\ heap w' = heap w.
Proof.
  rewrite massUpdateProfiles_run.
  match goal with
  | |- context [profile_loop _ _ ?av ?bi ?n ?i ?cs ?w0] =>
      destruct (profile_loop_run config av bi n cs i w0)
        as (picks & chunks & w' & Hloop & Hheap & _ & Hlp & _ & Hpicks & _
            & Hcalls & Hresults & _)
  end.
  exists picks, w'. rewrite Hloop, Hresults. by cbn [locals results app].
Qed.

(** X25: when there is nothing to pick from (each update is off or has no
    candidates), every account is reported as updated with an [avatar] and
    a [bio] of [null], no file is read and no client is called; the only
    waits are the ones between two accounts. *)
Theorem massUpdateProfiles_nothing_to_update (clients : list Client)
    (config : ProfileConfig) (w : world string (profile_locals Response)) :
  updateAvatar config = false \/ loadAvatars = [] ->
  updateBio config = false \/ loadBios = [] ->
  exists (chunks : list (list event)) w',
    massUpdateProfiles readFile loadAvatars loadBios clients config w
    = (Normal ((fun c => Result (username c) true None (Some (None, None)) None)
               <$> clients), w')
    /\ calls (locals w') = calls (locals w)
    /\ trace w' = trace w ++ concat chunks
    /\ length chunks = length clients
    /\ forall j, (j < length clients)%nat ->
         exists gap,
           chunks !! j = Some gap
           /\ gap_between false (is_last (length clients) j)
                          (or_default (delayBetweenAccountsMin config) 5000)
                          (or_default (delayBetweenAccountsMax config) 15000)
                          gap.
Proof.
  intros Havatars Hbios.
  assert (Ha : (if updateAvatar config then loadAvatars else []) = []).
  { destruct Havatars as [-> | ->]; [done | by destruct (updateAvatar config)]. }
  assert (Hb : (if updateBio config then loadBios else []) = []).
  { destruct Hbios as [-> | ->]; [done | by destruct (updateBio config)]. }
  rewrite massUpdateProfiles_run, Ha, Hb.
  match goal with
  | |- context [profile_loop _ _ ?av ?bi ?n ?i ?cs ?w0] =>
      destruct (profile_loop_run config av bi n cs i w0)
        as (picks & chunks & w' & Hloop & _ & _ & Hlp & Hlc & Hpicks & Htrace
            & Hcalls & Hresults & Hchunks)
  end.
  exists chunks, w'. rewrite Hloop, Hresults.
  cbn [locals results calls trace app] in *.
  split.
  { do 2 f_equal.
    apply zip_with_map with (Q := fun p => p.1 = None /\ p.2 = None);
      [| done | done].
    intros c p Hp. by destruct (idle_pick config c p Hp) as (-> & _). }
  split.
  { rewrite Hcalls, concat_zip_empty
      with (Q := fun p : option string * option string =>
                   p.1 = None /\ p.2 = None); [by rewrite app_nil_r | | done].
    intros c p Hp. by destruct (idle_pick config c p Hp) as (_ & -> & _). }
  split; [done |]. split; [done |].
  intros j Hj.
  destruct (lookup_lt_is_Some_2 clients j Hj) as [c Hc].
  destruct (lookup_lt_is_Some_2 picks j) as [p Hp]; [lia |].
  destruct (Hchunks j c p Hc Hp) as (steps & gap & Hchunk & Hlen & _ & Hgap).
  rewrite Forall_forall in Hpicks.
  destruct (idle_pick config c p) as (Hwork & _ & Hsteps).
  { apply Hpicks. apply list_elem_of_lookup. by exists j. }
  rewrite Hsteps in Hlen. destruct steps; [| discriminate].
  rewrite Hwork in Hgap. exists gap. by split.
Qed.

(** X26: when avatars are to be updated and none of the avatar files can
    be read, every account is reported as failed with the message of the
    read error; the only calls are one read per account, so no avatar is
    uploaded and no bio is sent whatever [updateBio] says; each account
    waits once, two to five seconds, and there is no wait between
    accounts. *)
Theorem massUpdateProfiles_unreadable_avatars (clients : list Client)
    (config : ProfileConfig) (w : world string (profile_locals Response)) :
  updateAvatar config = true ->
  loadAvatars <> [] ->
  Forall (fun path => path <> ""%string /\ raises (readFile path) = true)
         loadAvatars ->
  exists entries (paths : list string) (delays : list Z) w',
    massUpdateProfiles readFile loadAvatars loadBios clients config w
    = (Normal entries, w')
    /\ Forall2 (fun c entry =>
                  exists path e,
                    path ∈ loadAvatars /\ readFile path = Throw e
                    /\ entry = Result (username c) false None None
                                      (Some (message e)))
               clients entries
    /\ calls (locals w') = calls (locals w) ++ (ReadFile <$> paths)
    /\ length paths = length clients
    /\ Forall (fun path => path ∈ loadAvatars) paths
    /\ trace w' = trace w ++ (Wait <$> delays)
    /\ length delays = length clients
    /\ Forall (fun d => 2000 <= d <= 5000) delays.
Proof.
  intros Hon Hne Hall.
  rewrite massUpdateProfiles_run, Hon.
  match goal with
  | |- context [profile_loop _ _ ?av ?bi ?n ?i ?cs ?w0] =>
      destruct (profile_loop_run config av bi n cs i w0)
        as (picks & chunks & w' & Hloop & _ & _ & Hlp & Hlc & Hpicks & Htrace
            & Hcalls & Hresults & Hchunks)
  end.
  cbn [locals results calls trace app] in *.
  assert (Hpicks' : Forall (fun p => picked_from loadAvatars p.1) picks).
  { eapply Forall_impl; [exact Hpicks |]. by intros p [Hp _]. }
  destruct (concat_zip_singletons
              (fun c p => profile_calls readFile config c p.1 p.2) ReadFile
              (fun p => picked_from loadAvatars p.1)
              (fun path => path ∈ loadAvatars) clients) with (ys := picks)
    as (paths & Hpaths & Hlpaths & Hin); [| done | done |].
  { intros c p Hp.
    destruct (unreadable_pick config c p Hon Hne Hall Hp)
      as (path & e & Hpath & _ & _ & Hc & _).
    by exists path. }
  destruct (concat_single_waits (fun d => 2000 <= d <= 5000) chunks)
    as (delays & Hdelays & Hldelays & Hrange).
  { intros j chunk Hj.
    destruct (lookup_lt_is_Some_2 clients j) as [c Hc].
    { rewrite <- Hlc. by eapply lookup_lt_Some. }
    destruct (lookup_lt_is_Some_2 picks j) as [p Hp].
    { rewrite Hlp, <- Hlc. by eapply lookup_lt_Some. }
    destruct (Hchunks j c p Hc Hp) as (steps & gap & Hchunk & Hlen & Hsteps & Hgap).
    rewrite Forall_forall in Hpicks'.
    destruct (unreadable_pick config c p Hon Hne Hall)
      as (path & e & _ & _ & Hwork & _ & Hone).
    { apply Hpicks'. apply list_elem_of_lookup. by exists j. }
    rewrite Hwork in Hgap. cbn [raises orb gap_between] in Hgap. subst gap.
    rewrite Hone in Hlen. destruct steps as [| d [| ? ?]]; try discriminate.
    apply Forall_cons in Hsteps as [Hd _].
    exists d. split; [| done]. rewrite Hchunk in Hj. by injection Hj as <-. }
  eexists _, paths, delays, w'. rewrite Hloop.
  split; [reflexivity |]. rewrite Hresults.
  split.
  { apply zip_with_related
      with (Q := fun p : option string * option string =>
                   picked_from loadAvatars p.1); [| done | done].
    intros c p Hp.
    destruct (unreadable_pick config c p Hon Hne Hall Hp)
      as (path & e & Hpath & Hread & -> & _).
    by exists path, e. }
  split; [by rewrite Hcalls, Hpaths |].
  split; [done |]. split; [done |].
  split; [by rewrite Htrace, Hdelays |].
  split; [congruence | done].
Qed.

End Facts.

(** Witness of [massUpdateProfiles_nothing_to_update]: both updates are on,
    and neither avatars nor bios were found. *)
Lemma massUpdateProfiles_nothing_to_update_witness :
  (updateAvatar MoreExamples.update_everything = false \/ @nil string = [])
  /\ (updateBio MoreExamples.update_everything = false \/ @nil string = [])
  /\ exists (chunks : list (list event)) w',
       massUpdateProfiles MoreExamples.no_file [] []
         [MoreExamples.profile_client "alice"; MoreExamples.profile_client "bob"]
         MoreExamples.update_everything MoreExamples.profile_world
       = (Normal ((fun c => Result (username c) true None (Some (None, None)) None)
                  <$> [MoreExamples.profile_client "alice";
                       MoreExamples.profile_client "bob"]), w')
       /\ calls (locals w') = calls (locals MoreExamples.profile_world)
       /\ trace w' = trace MoreExamples.profile_world ++ concat chunks
       /\ length chunks = 2%nat
       /\ forall j, (j < 2)%nat ->
            exists gap,
              chunks !! j = Some gap
              /\ gap_between false (is_last 2 j)
                   (or_default (delayBetweenAccountsMin
                                  MoreExamples.update_everything) 5000)
                   (or_default (delayBetweenAccountsMax
                                  MoreExamples.update_everything) 15000)
                   gap.
Proof.
  split; [by right |]. split; [by right |].
  apply (massUpdateProfiles_nothing_to_update MoreExamples.no_file [] []
           [MoreExamples.profile_client "alice"; MoreExamples.profile_client "bob"]
           MoreExamples.update_everything MoreExamples.profile_world);
    by right.
Defined.

(** Witness of [massUpdateProfiles_unreadable_avatars]: one avatar was
    listed and its file is gone. *)
Lemma massUpdateProfiles_unreadable_avatars_witness :
  updateAvatar MoreExamples.update_everything = true
  /\ ["avatars/a.png"%string] <> []
  /\ Forall (fun path => path <> ""%string
                         /\ raises (MoreExamples.no_file path) = true)
            ["avatars/a.png"%string]
  /\ exists entries (paths : list string) (delays : list Z) w',
       massUpdateProfiles MoreExamples.no_file ["avatars/a.png"%string]
         ["hello"%string]
         [MoreExamples.profile_client "alice"; MoreExamples.profile_client "bob"]
         MoreExamples.update_everything MoreExamples.profile_world
       = (Normal entries, w')
       /\ Forall2 (fun c entry =>
                     exists path e,
                       path ∈ ["avatars/a.png"%string]
                       /\ MoreExamples.no_file path = Throw e
                       /\ entry = Result (username c) false None None
                                         (Some (message e)))
                  [MoreExamples.profile_client "alice";
                   MoreExamples.profile_client "bob"] entries
       /\ calls (locals w')
          = calls (locals MoreExamples.profile_world) ++ (ReadFile <$> paths)
       /\ length paths = 2%nat
       /\ Forall (fun path => path ∈ ["avatars/a.png"%string]) paths
       /\ trace w' = trace MoreExamples.profile_world ++ (Wait <$> delays)
       /\ length delays = 2%nat
       /\ Forall (fun d => 2000 <= d <= 5000) delays.
Proof.
  assert (H : Forall (fun path => path <> ""%string
                                 /\ raises (MoreExamples.no_file path) = true)
                     ["avatars/a.png"%string]).
  { apply Forall_cons; split; [by split | apply Forall_nil_2]. }
  split; [reflexivity |]. split; [discriminate |]. split; [exact H |].
  apply (massUpdateProfiles_unreadable_avatars MoreExamples.no_file
           ["avatars/a.png"%string] ["hello"%string]
           [MoreExamples.profile_client "alice"; MoreExamples.profile_client "bob"]
           MoreExamples.update_everything MoreExamples.profile_world);
    [reflexivity | discriminate | exact H].
Defined.

End ProfileFacts.
